(** * A contact book with a birthday scheduler (src/main.py)

    Shallow embedding of [src/main.py]: the field validators, [Record],
    [AddressBook] and the parts of Python's [datetime.date] the address book
    relies on (construction, [replace], comparison, subtraction, adding a
    [timedelta], [weekday], [strftime], and [strptime] with ["%d.%m.%Y"]);
    [str.split], [str.strip] and [str.lower] for [parse_input]; the handlers
    with their [input_error] decorator; and the read-eval-print loop of
    [main], as a run over a list of input lines. *)

From Stdlib Require Import ZArith List String Ascii Bool Lia.
Import ListNotations.
Open Scope Z_scope.

(** ** Python exceptions and fallible results *)

(** A Python [str] is a sequence of Unicode code points. *)
Definition pystr := list Z.

Definition pystr_of (s : string) : pystr :=
  map (fun c => Z.of_nat (nat_of_ascii c)) (list_ascii_of_string s).

Definition pystr_eqb (a b : pystr) : bool :=
  if list_eq_dec Z.eq_dec a b then true else false.

Inductive exn :=
| ValidationException (msg : pystr)
| KeyError (msg : pystr)
| ValueError
| OverflowError.

Inductive result (A : Type) :=
| Ok (a : A)
| Err (e : exn).
Arguments Ok {A} a.
Arguments Err {A} e.

Definition rbind {A B} (r : result A) (f : A -> result B) : result B :=
  match r with
  | Ok a => f a
  | Err e => Err e
  end.

Notation "x <-? r ;; k" := (rbind r (fun x => k))
  (at level 61, r at next level, right associativity).

(** ** [datetime.date]

    The proleptic Gregorian calendar of CPython's [datetime] module:
    [_is_leap], [_days_in_month], [_days_before_year], [_days_before_month],
    [_ymd2ord], [_ord2ymd], with [MINYEAR = 1], [MAXYEAR = 9999]. *)

Record date := mkdate { year : Z; month : Z; day : Z }.

Definition MINYEAR : Z := 1.
Definition MAXYEAR : Z := 9999.
Definition MAXORDINAL : Z := 3652059.

Definition _is_leap (y : Z) : bool :=
  (y mod 4 =? 0) && (negb (y mod 100 =? 0) || (y mod 400 =? 0)).

Definition _DAYS_IN_MONTH : list Z :=
  [-1; 31; 28; 31; 30; 31; 30; 31; 31; 30; 31; 30; 31].

Definition _DAYS_BEFORE_MONTH : list Z :=
  [-1; 0; 31; 59; 90; 120; 151; 181; 212; 243; 273; 304; 334].

Definition tbl (t : list Z) (i : Z) : Z := nth (Z.to_nat i) t 0.

Definition _days_in_month (y m : Z) : Z :=
  if (m =? 2) && _is_leap y then 29 else tbl _DAYS_IN_MONTH m.

Definition _days_before_year (y : Z) : Z :=
  let y := y - 1 in y * 365 + y / 4 - y / 100 + y / 400.

Definition _days_before_month (y m : Z) : Z :=
  tbl _DAYS_BEFORE_MONTH m + (if (2 <? m) && _is_leap y then 1 else 0).

Definition _ymd2ord (y m d : Z) : Z :=
  _days_before_year y + _days_before_month y m + d.

Definition _DI400Y : Z := 146097.
Definition _DI100Y : Z := 36524.
Definition _DI4Y : Z := 1461.

Definition _ord2ymd (n : Z) : date :=
  let n := n - 1 in
  let n400 := n / _DI400Y in let n := n mod _DI400Y in
  let year := n400 * 400 + 1 in
  let n100 := n / _DI100Y in let n := n mod _DI100Y in
  let n4 := n / _DI4Y in let n := n mod _DI4Y in
  let n1 := n / 365 in let n := n mod 365 in
  let year := year + n100 * 100 + n4 * 4 + n1 in
  if (n1 =? 4) || (n100 =? 4) then mkdate (year - 1) 12 31
  else
    let leapyear := (n1 =? 3) && (negb (n4 =? 24) || (n100 =? 3)) in
    let month := Z.shiftr (n + 50) 5 in
    let preceding := tbl _DAYS_BEFORE_MONTH month
                     + (if (2 <? month) && leapyear then 1 else 0) in
    if n <? preceding then
      let month := month - 1 in
      let preceding := preceding - (tbl _DAYS_IN_MONTH month
                                    + (if (month =? 2) && leapyear then 1 else 0)) in
      mkdate year month (n - preceding + 1)
    else mkdate year month (n - preceding + 1).

(** [_check_date_fields]: the checks of the [date] constructor. *)
Definition valid_ymd (y m d : Z) : bool :=
  (MINYEAR <=? y) && (y <=? MAXYEAR) && (1 <=? m) && (m <=? 12)
  && (1 <=? d) && (d <=? _days_in_month y m).

Definition valid_date (x : date) : bool := valid_ymd (year x) (month x) (day x).

(** [date(y, m, d)]: raises [ValueError] on out-of-range fields. *)
Definition mk_date (y m d : Z) : result date :=
  if valid_ymd y m d then Ok (mkdate y m d) else Err ValueError.

(** [d.replace(year=y)] *)
Definition date_replace_year (x : date) (y : Z) : result date :=
  mk_date y (month x) (day x).

Definition toordinal (x : date) : Z := _ymd2ord (year x) (month x) (day x).

Definition fromordinal (n : Z) : date := _ord2ymd n.

(** [d.weekday()]: Monday is 0, Sunday is 6. *)
Definition weekday (x : date) : Z := (toordinal x + 6) mod 7.

(** [a < b]: dates compare as the tuples [(year, month, day)]. *)
Definition date_lt (a b : date) : bool :=
  (year a <? year b)
  || ((year a =? year b) && ((month a <? month b)
                              || ((month a =? month b) && (day a <? day b)))).

(** [(a - b).days] *)
Definition date_sub_days (a b : date) : Z := toordinal a - toordinal b.

(** [d + timedelta(days=k)]: raises [OverflowError] out of range. *)
Definition date_add_days (x : date) (k : Z) : result date :=
  let o := toordinal x + k in
  if (0 <? o) && (o <=? MAXORDINAL) then Ok (fromordinal o) else Err OverflowError.

(** A check of one 400-year cycle of [_ord2ymd], applied to the date [x]
    built from ordinal [r + 1]: [x] is valid, maps back to [r + 1], and lies
    in years 1..400 (in years 1..399 up to [r = 145730]). *)
Definition date_cycle_ok (r : Z) (x : date) : bool :=
  (_ymd2ord (year x) (month x) (day x) =? r + 1)
  && (1 <=? year x) && (year x <=? 400)
  && implb (r <=? 145730) (year x <=? 399)
  && (1 <=? month x) && (month x <=? 12)
  && (1 <=? day x) && (day x <=? _days_in_month (year x) (month x)).

Fixpoint all_from (f : Z -> bool) (fuel : nat) (i : Z) : bool :=
  match fuel with
  | O => true
  | S k => f i && all_from f k (i + 1)
  end.

(** [d.strftime("%d")], ["%m"]: two digits; ["%Y"]: four digits. *)
Definition digit (n : Z) : Z := 48 + n mod 10.
Definition pad2 (n : Z) : pystr := [digit (n / 10); digit n].
Definition pad4 (n : Z) : pystr :=
  [digit (n / 1000); digit (n / 100); digit (n / 10); digit n].

(** [d.strftime("%d.%m.%Y")] *)
Definition strftime_dmy (x : date) : pystr :=
  pad2 (day x) ++ pystr_of "." ++ pad2 (month x) ++ pystr_of "." ++ pad4 (year x).

(** [d.strftime("%Y.%m.%d")] *)
Definition strftime_ymd (x : date) : pystr :=
  pad4 (year x) ++ pystr_of "." ++ pad2 (month x) ++ pystr_of "." ++ pad2 (day x).

(** [sep.join(xs)] *)
Fixpoint join (sep : pystr) (xs : list pystr) : pystr :=
  match xs with
  | [] => []
  | [x] => x
  | x :: xs' => x ++ sep ++ join sep xs'
  end.

(** ** Field validators

    [str.isalpha] and [str.isdigit] consult the Unicode character database;
    the development is parametric in the per-code-point predicates. *)

Class UnicodeDB := {
  cp_isalpha : Z -> bool;
  cp_isdigit : Z -> bool
}.

Section Book.
Context `{UnicodeDB}.

(** [s.isalpha()], [s.isdigit()]: false on the empty string. *)
Definition str_isalpha (s : pystr) : bool :=
  match s with [] => false | _ => forallb cp_isalpha s end.

Definition str_isdigit (s : pystr) : bool :=
  match s with [] => false | _ => forallb cp_isdigit s end.

(** [Name.validate_name] *)
Definition validate_name (value : pystr) : result unit :=
  if negb (str_isalpha value)
  then Err (ValidationException (pystr_of "Name must contain only letters"))
  else Ok tt.

(** [Phone.validate_phone] *)
Definition validate_phone (value : pystr) : result unit :=
  if negb (str_isdigit value) || negb (Nat.eqb (List.length value) 10)
  then Err (ValidationException (pystr_of "Phone number must be 10 digits"))
  else Ok tt.

(** ** [Record]

    [name] is [record.name.value], [phones] the values of the [Phone]
    objects in [record.phones], [birthday] the date held by the [Birthday]
    field ([None] while unset). *)

Record record := mkrecord {
  name : pystr;
  phones : list pystr;
  birthday : option date
}.

(** [Record(name)]: [Name(name)] validates the name. *)
Definition Record_new (n : pystr) : result record :=
  _ <-? validate_name n ;; Ok (mkrecord n [] None).

(** [record.add_phone(phone)]: [Phone(phone)] is validated before the append. *)
Definition add_phone (r : record) (phone : pystr) : result record :=
  _ <-? validate_phone phone ;;
  Ok (mkrecord (name r) (phones r ++ [phone]) (birthday r)).

(** [record.edit_phone(old_phone, new_phone)]: the loop visits every phone
    and assigns [p.value = new_phone] to each one equal to [old_phone]. *)
Definition edit_phone (r : record) (old_phone new_phone : pystr) : record :=
  mkrecord (name r)
    (map (fun p => if pystr_eqb p old_phone then new_phone else p) (phones r))
    (birthday r).

(** [record.find_phone(phone)] *)
Definition find_phone (r : record) (phone : pystr) : option pystr :=
  List.find (fun p => pystr_eqb p phone) (phones r).

(** [record.show_birthday()] *)
Definition show_birthday (r : record) : pystr :=
  match birthday r with
  | Some b => strftime_dmy b
  | None => pystr_of "Birthday not set"
  end.

(** [str(record)] *)
Definition record_str (r : record) : pystr :=
  pystr_of "Contact name: " ++ name r ++ pystr_of ", phones: "
  ++ join (pystr_of "; ") (phones r)
  ++ match birthday r with
     | Some _ => pystr_of ", birthday: " ++ show_birthday r
     | None => []
     end.

(** ** [AddressBook]

    [self.data] is a Python [dict]: an association list in insertion order.
    Assigning an existing key keeps its position; a new key is appended. *)

Definition book := list (pystr * record).

Fixpoint dict_get (k : pystr) (s : book) : option record :=
  match s with
  | [] => None
  | (k', v) :: s' => if pystr_eqb k k' then Some v else dict_get k s'
  end.

Fixpoint dict_set (k : pystr) (v : record) (s : book) : book :=
  match s with
  | [] => [(k, v)]
  | (k', v') :: s' =>
      if pystr_eqb k k' then (k', v) :: s' else (k', v') :: dict_set k v s'
  end.

(** [del d[k]]: [None] when [k] is absent (Python raises [KeyError(k)]). *)
Fixpoint dict_del (k : pystr) (s : book) : option book :=
  match s with
  | [] => None
  | (k', v') :: s' =>
      if pystr_eqb k k' then Some s'
      else option_map (cons (k', v')) (dict_del k s')
  end.

(** Methods run in a state-and-exception monad over [self.data]; an
    exception keeps every mutation made before it was raised. *)
Definition M (A : Type) := book -> result A * book.

Definition ret {A} (a : A) : M A := fun s => (Ok a, s).
Definition raise {A} (e : exn) : M A := fun s => (Err e, s).
Definition lift {A} (r : result A) : M A := fun s => (r, s).
Definition bind {A B} (m : M A) (f : A -> M B) : M B :=
  fun s => let (r, s') := m s in
           match r with Ok a => f a s' | Err e => (Err e, s') end.

Notation "x <- m ;; k" := (bind m (fun x => k))
  (at level 61, m at next level, right associativity).

(** [self.add_record(record)] *)
Definition add_record (r : record) : M unit :=
  fun s => (Ok tt, dict_set (name r) r s).

(** [self.find(name)] *)
Definition find_rec (n : pystr) : M (option record) :=
  fun s => (Ok (dict_get n s), s).

(** [self.delete(name)] *)
Definition delete (n : pystr) : M unit :=
  fun s => match dict_del n s with
           | Some s' => (Ok tt, s')
           | None => (Err (KeyError n), s)
           end.

(** A record object found under key [n] is shared with the dict: mutating
    it in place is seen through [self.data[n]]. *)
Definition store_record (n : pystr) (r : record) : M unit :=
  fun s => (Ok tt, dict_set n r s).

(** [get_upcoming_birthdays], lines 98-102: this year's occurrence, moved to
    next year when already past. *)
Definition this_year_birthday (today b : date) : result date :=
  t <-? date_replace_year b (year today) ;;
  if date_lt t today then date_replace_year t (year today + 1) else Ok t.

(** Lines 106-112: a Saturday or Sunday is moved to the next Monday. *)
Definition congratulation_shift (t : date) : result date :=
  if weekday t =? 5 then date_add_days t 2
  else if weekday t =? 6 then date_add_days t 1
  else Ok t.

(** The dict appended to [upcoming_birthdays]. *)
Record entry := mkentry {
  e_name : pystr;
  e_birthday : pystr;
  e_congratulation_date : pystr
}.

(** One iteration of the loop of [get_upcoming_birthdays]. *)
Definition upcoming_entry (today : date) (r : record) : result (option entry) :=
  match birthday r with
  | None => Ok None
  | Some b =>
      t <-? this_year_birthday today b ;;
      if (0 <=? date_sub_days t today) && (date_sub_days t today <=? 7) then
        c <-? congratulation_shift t ;;
        Ok (Some (mkentry (name r) (strftime_dmy c) (strftime_ymd c)))
      else Ok None
  end.

Fixpoint upcoming_loop (today : date) (vs : list record) : result (list entry) :=
  match vs with
  | [] => Ok []
  | r :: vs' =>
      o <-? upcoming_entry today r ;;
      l <-? upcoming_loop today vs' ;;
      Ok (match o with Some e => e :: l | None => l end)
  end.

(** [self.get_upcoming_birthdays()], with [datetime.now().date()] as [today]. *)
Definition get_upcoming_birthdays (today : date) : M (list entry) :=
  fun s => (upcoming_loop today (map snd s), s).

(** [if phone:] -- [None] and the empty string are falsy. *)
Definition truthy (phone : option pystr) : option pystr :=
  match phone with
  | Some ((_ :: _) as p) => Some p
  | _ => None
  end.

(** [self.add_contact(name, phone=None)] *)
Definition add_contact (n : pystr) (phone : option pystr) : M pystr :=
  found <- find_rec n ;;
  rm <- match found with
        | None =>
            r <- lift (Record_new n) ;;
            _ <- add_record r ;;
            ret (r, pystr_of "Contact added.")
        | Some r => ret (r, pystr_of "Contact updated.")
        end ;;
  let (r, message) := rm in
  match truthy phone with
  | Some p =>
      r' <- lift (add_phone r p) ;;
      _ <- store_record n r' ;;
      ret message
  | None => ret message
  end.

(** [self.change_contact(name, old_phone, new_phone)] *)
Definition change_contact (n old_phone new_phone : pystr) : M pystr :=
  found <- find_rec n ;;
  match found with
  | None => raise (KeyError (pystr_of "Contact not found."))
  | Some r =>
      _ <- store_record n (edit_phone r old_phone new_phone) ;;
      ret (pystr_of "Phone number updated.")
  end.

(** [self.show_phone(name)] *)
Definition show_phone (n : pystr) : M pystr :=
  found <- find_rec n ;;
  match found with
  | None => raise (KeyError (pystr_of "Contact not found."))
  | Some r => ret (join (pystr_of "; ") (phones r))
  end.

(** [self.show_all()] *)
Definition show_all : M pystr :=
  fun s => match s with
           | [] => (Ok (pystr_of "No contacts available."), s)
           | _ => (Ok (join (pystr_of "
") (map (fun kv => record_str (snd kv)) s)), s)
           end.

(** The store operations of the address book. *)
Inductive book_op :=
| OpAddRecord (r : record)
| OpFind (n : pystr)
| OpDelete (n : pystr)
| OpUpcoming (today : date)
| OpAddContact (n : pystr) (phone : option pystr)
| OpChangeContact (n old_phone new_phone : pystr)
| OpShowPhone (n : pystr)
| OpShowAll.

(** The store after an operation, whether it returned or raised. *)
Definition run_op (op : book_op) (s : book) : book :=
  match op with
  | OpAddRecord r => snd (add_record r s)
  | OpFind n => snd (find_rec n s)
  | OpDelete n => snd (delete n s)
  | OpUpcoming today => snd (get_upcoming_birthdays today s)
  | OpAddContact n phone => snd (add_contact n phone s)
  | OpChangeContact n o p => snd (change_contact n o p s)
  | OpShowPhone n => snd (show_phone n s)
  | OpShowAll => snd (show_all s)
  end.

(** Every [Record] object is built by [Record.__init__], which validates the
    name, and no method reassigns [record.name]. *)
Definition record_ok (r : record) : bool := str_isalpha (name r).

Definition op_ok (op : book_op) : bool :=
  match op with
  | OpAddRecord r => record_ok r
  | _ => true
  end.

(** The invariant of [self.data]: distinct keys, each mapped to a record
    whose name is the key and passes [validate_name]. *)
Definition store_inv (s : book) : Prop :=
  NoDup (map fst s) /\
  Forall (fun kv => fst kv = name (snd kv) /\ str_isalpha (fst kv) = true) s.

End Book.

(** ** Text processing

    [str.split], [str.strip], [str.lower] and the [\d] of the [re] module
    consult the Unicode database as well: [cp_isspace] is [str.isspace] on one
    code point, [cp_decimal] the value of a decimal digit (category Nd, what
    [\d] matches and [int] reads), and [str_lower] is [str.lower] on a whole
    string (its final-sigma rule depends on the context). *)

Class UnicodeText := {
  cp_isspace : Z -> bool;
  cp_decimal : Z -> option Z;
  str_lower : pystr -> pystr
}.

Definition in_range (lo hi c : Z) : bool := (lo <=? c) && (c <=? hi).

Section Text.
Context `{UnicodeText}.

(** [s.split()]: maximal runs of non-whitespace; [cur] is the current run,
    reversed. *)
Fixpoint split_go (s cur : pystr) : list pystr :=
  match s with
  | [] => match cur with [] => [] | _ => [rev cur] end
  | c :: s' =>
      if cp_isspace c then
        match cur with
        | [] => split_go s' []
        | _ => rev cur :: split_go s' []
        end
      else split_go s' (c :: cur)
  end.

Definition py_split (s : pystr) : list pystr := split_go s [].

Fixpoint lstrip (s : pystr) : pystr :=
  match s with
  | c :: s' => if cp_isspace c then lstrip s' else s
  | [] => []
  end.

(** [s.strip()] *)
Definition py_strip (s : pystr) : pystr := rev (lstrip (rev (lstrip s))).

(** [parse_input(user_input)]; [cmd, *args = []] would raise [ValueError]. *)
Definition parse_input (user_input : pystr) : result (pystr * list pystr) :=
  match py_strip user_input with
  | [] => Ok ([], [])
  | _ =>
      match py_split user_input with
      | cmd :: args => Ok (str_lower (py_strip cmd), map py_strip args)
      | [] => Err ValueError
      end
  end.

(** [datetime.strptime(value, "%d.%m.%Y")]: CPython's [_strptime] compiles
    the format to [(?P<d>3[0-1]|[1-2]\d|0[1-9]|[1-9]| [1-9])\.]
    [(?P<m>1[0-2]|0[1-9]|[1-9])\.(?P<Y>\d\d\d\d)] and calls [re.match].
    Each [re_*] lists the ways its group matches a prefix, in the order the
    engine tries them, with the value [int()] reads and the rest of the
    input. *)
Definition re_d (s : pystr) : list (Z * pystr) :=
  match s with
  | c1 :: c2 :: r =>
      (if (c1 =? 51) && in_range 48 49 c2 then [(30 + (c2 - 48), r)] else []) ++
      (if in_range 49 50 c1 then
         match cp_decimal c2 with Some v => [((c1 - 48) * 10 + v, r)] | None => [] end
       else []) ++
      (if (c1 =? 48) && in_range 49 57 c2 then [(c2 - 48, r)] else []) ++
      (if in_range 49 57 c1 then [(c1 - 48, c2 :: r)] else []) ++
      (if (c1 =? 32) && in_range 49 57 c2 then [(c2 - 48, r)] else [])
  | [c1] => if in_range 49 57 c1 then [(c1 - 48, [])] else []
  | [] => []
  end.

Definition re_m (s : pystr) : list (Z * pystr) :=
  match s with
  | c1 :: c2 :: r =>
      (if (c1 =? 49) && in_range 48 50 c2 then [(10 + (c2 - 48), r)] else []) ++
      (if (c1 =? 48) && in_range 49 57 c2 then [(c2 - 48, r)] else []) ++
      (if in_range 49 57 c1 then [(c1 - 48, c2 :: r)] else [])
  | [c1] => if in_range 49 57 c1 then [(c1 - 48, [])] else []
  | [] => []
  end.

Definition re_Y (s : pystr) : list (Z * pystr) :=
  match s with
  | a :: b :: c :: d :: r =>
      match cp_decimal a, cp_decimal b, cp_decimal c, cp_decimal d with
      | Some va, Some vb, Some vc, Some vd => [(va * 1000 + vb * 100 + vc * 10 + vd, r)]
      | _, _, _, _ => []
      end
  | _ => []
  end.

Definition re_dot (s : pystr) : list pystr :=
  match s with
  | c :: r => if c =? 46 then [r] else []
  | [] => []
  end.

(** All the matches of the whole pattern, in the engine's order: day,
    month, year and the unmatched rest. *)
Definition re_dmY (s : pystr) : list (Z * Z * Z * pystr) :=
  flat_map (fun dr =>
    flat_map (fun r2 =>
      flat_map (fun mr =>
        flat_map (fun r4 =>
          map (fun yr => (fst dr, fst mr, fst yr, snd yr)) (re_Y r4))
          (re_dot (snd mr)))
        (re_m r2))
      (re_dot (snd dr)))
    (re_d s).

(** [re.match] returns the first match; unconverted data after it, no match
    at all, or fields out of range for [date] raise [ValueError]. *)
Definition strptime_dmy (value : pystr) : result date :=
  match re_dmY value with
  | (d, m, y, []) :: _ => mk_date y m d
  | _ => Err ValueError
  end.

End Text.

Section Commands.
Context `{UnicodeDB} `{UnicodeText}.

(** [Birthday(value)] *)
Definition Birthday_new (value : pystr) : result date :=
  match strptime_dmy value with
  | Ok d => Ok d
  | Err ValueError => Err (ValidationException (pystr_of "Invalid date format. Use DD.MM.YYYY"))
  | Err e => Err e
  end.

(** [record.add_birthday(birthday)] *)
Definition add_birthday (r : record) (value : pystr) : result record :=
  d <-? Birthday_new value ;; Ok (mkrecord (name r) (phones r) (Some d)).

(** [record.remove_phone(phone)]: [for p in self.phones] walks the list by
    index [i] while [self.phones.remove(p)] shifts the later phones one place
    left. Each [Phone] is its own object and [Phone] defines no [__eq__], so
    [remove(p)] deletes the element at index [i]. The loop stops when [i]
    reaches the end of the list; [fuel] bounds its steps. *)
Definition remove_at {A} (i : nat) (l : list A) : list A := firstn i l ++ skipn (S i) l.

Fixpoint remove_phone_loop (phone : pystr) (fuel i : nat) (ps : list pystr) : list pystr :=
  match fuel with
  | O => ps
  | S f =>
      match nth_error ps i with
      | None => ps
      | Some p =>
          if pystr_eqb p phone then remove_phone_loop phone f (S i) (remove_at i ps)
          else remove_phone_loop phone f (S i) ps
      end
  end.

(** The index grows by one per step and the list never grows, so
    [len(self.phones)] steps reach the end. *)
Definition remove_phone (r : record) (phone : pystr) : record :=
  mkrecord (name r) (remove_phone_loop phone (List.length (phones r)) 0 (phones r))
    (birthday r).

(** The exceptions a handler can raise. *)
Inductive handler_exn :=
| BookError (e : exn)
| IndexError (msg : pystr).

(** A line printed by [print]: a string the code builds, or [str(e)] of an
    exception whose text (that of [date]'s [ValueError] or
    [OverflowError]) is not modelled. *)
Inductive shown :=
| Shown (s : pystr)
| ShownExn (e : exn).

(** [repr(m)] is [m] between single quotes for printable ASCII text with no
    quote and no backslash. *)
Definition plain_ascii (m : pystr) : bool :=
  forallb (fun c => in_range 32 126 c && negb (c =? 39) && negb (c =? 92)) m.

(** [str(e)]: the message, and for [KeyError] the [repr] of the message. *)
Definition exn_str (e : handler_exn) : shown :=
  match e with
  | IndexError m => Shown m
  | BookError (ValidationException m) => Shown m
  | BookError (KeyError m) =>
      if plain_ascii m then Shown ([39] ++ m ++ [39]) else ShownExn (KeyError m)
  | BookError e => ShownExn e
  end.

Definition hresult := (pystr + handler_exn)%type.

(** [input_error]: an exception becomes [str(e)]. *)
Definition input_error (r : hresult) : shown :=
  match r with
  | inl s => Shown s
  | inr e => exn_str e
  end.

Inductive event :=
| Prompt                        (* input("Enter a command: ") *)
| Print (s : shown)             (* print(s) *)
| PrintArgs (args : list pystr). (* print('args: ', args) *)

Definition from_book (m : M pystr) (b : book) : hresult * book :=
  let (r, b') := m b in
  (match r with Ok s => inl s | Err e => inr (BookError e) end, b').

Definition contact_not_found : handler_exn :=
  BookError (KeyError (pystr_of "Contact not found.")).

(** [handle_add_birthday(args, book)]: the record found is mutated in place. *)
Definition handle_add_birthday (args : list pystr) (b : book) : list event * hresult * book :=
  match args with
  | [n; date] =>
      match dict_get n b with
      | None => ([PrintArgs args], inr contact_not_found, b)
      | Some r =>
          match add_birthday r date with
          | Ok r' => ([PrintArgs args], inl (pystr_of "Birthday added"), dict_set n r' b)
          | Err e => ([PrintArgs args], inr (BookError e), b)
          end
      end
  | _ => ([], inr (IndexError (pystr_of "Please provide contact name and birthday date.")), b)
  end.

(** [handle_show_birthday(args, book)] *)
Definition handle_show_birthday (args : list pystr) (b : book) : list event * hresult * book :=
  match args with
  | [n] =>
      match dict_get n b with
      | None => ([], inr contact_not_found, b)
      | Some r => ([], inl (show_birthday r), b)
      end
  | _ => ([], inr (IndexError (pystr_of "Please provide contact name.")), b)
  end.

(** One line of [handle_birthdays]. *)
Definition entry_line (e : entry) : pystr :=
  e_name e ++ pystr_of ": birthday on " ++ e_birthday e
  ++ pystr_of ", celebrate on " ++ e_congratulation_date e.

(** [handle_birthdays(args, book)] *)
Definition handle_birthdays (today : date) (args : list pystr) (b : book)
  : list event * hresult * book :=
  let (r, b') := get_upcoming_birthdays today b in
  match r with
  | Ok [] => ([], inl (pystr_of "There are no birthdays in the next 7 days."), b')
  | Ok l => ([], inl (join (pystr_of "
") (map entry_line l)), b')
  | Err e => ([], inr (BookError e), b')
  end.

(** [handle_add_contact(args, book)]: the arguments are printed before the
    check; with two arguments [phone] is [args[1]]. *)
Definition handle_add_contact (args : list pystr) (b : book) : list event * hresult * book :=
  match args with
  | [n; phone] =>
      let (r, b') := from_book (add_contact n (Some phone)) b in ([PrintArgs args], r, b')
  | _ => ([PrintArgs args],
          inr (IndexError (pystr_of "Please provide contact name and phone number.")), b)
  end.

(** [handle_change_contact(args, book)] *)
Definition handle_change_contact (args : list pystr) (b : book) : list event * hresult * book :=
  match args with
  | [n; old_phone; new_phone] =>
      let (r, b') := from_book (change_contact n old_phone new_phone) b in ([], r, b')
  | _ => ([], inr (IndexError (pystr_of
             "Please provide contact name, old phone number and new phone number.")), b)
  end.

(** [handle_show_phone(args, book)] *)
Definition handle_show_phone (args : list pystr) (b : book) : list event * hresult * book :=
  match args with
  | [n] => let (r, b') := from_book (show_phone n) b in ([], r, b')
  | _ => ([], inr (IndexError (pystr_of "Please provide contact name.")), b)
  end.

(** [handle_show_all(book)] *)
Definition handle_show_all (b : book) : list event * hresult * book :=
  let (r, b') := from_book show_all b in ([], r, b').

(** [print(handler(...))] *)
Definition run_handler (h : list event * hresult * book) : list event * book :=
  let '(evs, r, b') := h in (evs ++ [Print (input_error r)], b').

(** The [if]/[elif] chain of [main] for a non-empty command other than
    ["close"] and ["exit"]. *)
Definition dispatch (today : date) (command : pystr) (args : list pystr) (b : book)
  : list event * book :=
  if pystr_eqb command (pystr_of "hello") then
    ([Print (Shown (pystr_of "How can I help you?"))], b)
  else if pystr_eqb command (pystr_of "add") then run_handler (handle_add_contact args b)
  else if pystr_eqb command (pystr_of "change") then run_handler (handle_change_contact args b)
  else if pystr_eqb command (pystr_of "phone") then run_handler (handle_show_phone args b)
  else if pystr_eqb command (pystr_of "all") then run_handler (handle_show_all b)
  else if pystr_eqb command (pystr_of "add-birthday") then
    run_handler (handle_add_birthday args b)
  else if pystr_eqb command (pystr_of "show-birthday") then
    run_handler (handle_show_birthday args b)
  else if pystr_eqb command (pystr_of "birthdays") then
    run_handler (handle_birthdays today args b)
  else ([Print (Shown (pystr_of "Invalid command."))], b).

(** How [main] ends: [break], [EOFError] from [input()] once the input is
    exhausted, or an exception out of [parse_input]. *)
Inductive ending :=
| Exited
| EndOfInput
| Crashed (e : exn).

(** The [while True] loop of [main]: [inputs] are the lines [input()]
    returns, and [today i] is [datetime.now().date()] while the [i]-th line
    is handled. *)
Fixpoint main_loop (today : nat -> date) (i : nat) (inputs : list pystr) (b : book)
  : list event * book * ending :=
  match inputs with
  | [] => ([Prompt], b, EndOfInput)
  | line :: rest =>
      match parse_input line with
      | Err e => ([Prompt], b, Crashed e)
      | Ok (command, args) =>
          match command with
          | [] =>
              let '(evs, b', e) := main_loop today (S i) rest b in
              (Prompt :: Print (Shown (pystr_of "Please enter a command")) :: evs, b', e)
          | _ =>
              if pystr_eqb command (pystr_of "close") || pystr_eqb command (pystr_of "exit")
              then ([Prompt; Print (Shown (pystr_of "Good bye!"))], b, Exited)
              else
                let (evs1, b1) := dispatch (today i) command args b in
                let '(evs, b', e) := main_loop today (S i) rest b1 in
                (Prompt :: evs1 ++ evs, b', e)
          end
      end
  end.

(** [main()], starting from an empty [AddressBook]. *)
Definition main (today : nat -> date) (inputs : list pystr) : list event * book * ending :=
  let '(evs, b, e) := main_loop today 0 inputs [] in
  (Print (Shown (pystr_of "Welcome to the assistant bot!")) :: evs, b, e).

End Commands.

(** ** Helpers for reasoning about the text and record code *)

(** The loop of [remove_phone], read structurally: a matching phone is
    dropped and the phone after it is kept unchecked. *)
Fixpoint remove_skip (phone : pystr) (ps : list pystr) : list pystr :=
  match ps with
  | [] => []
  | p :: ps' =>
      if pystr_eqb p phone then
        match ps' with [] => [] | q :: ps'' => q :: remove_skip phone ps'' end
      else p :: remove_skip phone ps'
  end.

(** [differs phone p]: [p] is kept by a filter that drops copies of [phone]. *)
Definition differs (phone p : pystr) : bool := negb (pystr_eqb p phone).

Section TextFacts.
Context `{UnicodeText}.

(** On ASCII the Unicode database gives the digits [0]..[9] their values
    and no other decimal digit. *)
Definition ascii_decimal : Prop :=
  forall c, 0 <= c < 128 -> cp_decimal c = if in_range 48 57 c then Some (c - 48) else None.

(** A white-space code point, and a token of [str.split]: non-empty, with no
    white space. *)
Definition is_space (c : Z) : Prop := cp_isspace c = true.
Definition token (t : pystr) : Prop := t <> [] /\ Forall (fun c => cp_isspace c = false) t.

End TextFacts.

(** A Unicode database restricted to ASCII, for concrete runs. *)
#[local] Instance ascii_db : UnicodeDB := {
  cp_isalpha c := ((65 <=? c) && (c <=? 90)) || ((97 <=? c) && (c <=? 122));
  cp_isdigit c := (48 <=? c) && (c <=? 57)
}.

#[local] Instance ascii_text : UnicodeText := {
  cp_isspace c := (c =? 32) || in_range 9 13 c || in_range 28 31 c;
  cp_decimal c := if in_range 48 57 c then Some (c - 48) else None;
  str_lower s := map (fun c => if in_range 65 90 c then c + 32 else c) s
}.

(** Concrete inputs. *)
Definition anna : pystr := pystr_of "Anna".
Definition phone1 : pystr := pystr_of "1234567890".
Definition phone2 : pystr := pystr_of "0000000000".

(** [today = 10.06.2024]; Bob's birthday [15.06.1990] falls on Saturday
    15.06.2024. *)
Definition june10 : date := mkdate 2024 6 10.
Definition bob_record : record :=
  mkrecord (pystr_of "Bob") [phone1] (Some (mkdate 1990 6 15)).
Definition bob_book : book := [(pystr_of "Bob", bob_record)].

(** A record whose birthday is [29.02.2000], and a [today] in 2023. *)
Definition leap_record : record :=
  mkrecord (pystr_of "Leap") [] (Some (mkdate 2000 2 29)).
Definition leap_book : book := [(pystr_of "Leap", leap_record)].

(** A record holding the same phone twice. *)
Definition twin_record : record := mkrecord anna [phone1; phone1] None.

Definition anna_book : book := [(anna, mkrecord anna [phone1] None)].

Definition bob_entry : entry :=
  mkentry (pystr_of "Bob") (pystr_of "17.06.2024") (pystr_of "2024.06.17").

(** [today = 09.06.2024]; Sue's birthday [16.06.1985] falls on Sunday
    16.06.2024, seven days later. *)
Definition june9 : date := mkdate 2024 6 9.
Definition sue_record : record := mkrecord (pystr_of "Sue") [] (Some (mkdate 1985 6 16)).
Definition sue_entry : entry :=
  mkentry (pystr_of "Sue") (pystr_of "17.06.2024") (pystr_of "2024.06.17").

(** Inputs for the shell and the remaining record methods. *)
Definition zed : pystr := pystr_of "Zed".
Definition phone3 : pystr := pystr_of "5555555555".
Definition trio_record : record := mkrecord anna [phone2; phone1; phone3] None.
Definition clock_june10 : nat -> date := fun _ => june10.
Definition session : list pystr :=
  [pystr_of "add Anna 1234567890"; pystr_of "exit"].

(** * Calendar lemmas *)

Lemma all_from_spec f fuel i :
  all_from f fuel i = true -> forall j, i <= j < i + Z.of_nat fuel -> f j = true.
Proof.
  revert i; induction fuel as [|fuel IH]; intros i Hall j Hj; [lia|].
  simpl in Hall; apply andb_prop in Hall as [Hi Hrest].
  destruct (Z.eq_dec j i) as [->|Hne]; [exact Hi|].
  apply (IH (i + 1) Hrest); lia.
Qed.

Lemma cycle_all :
  all_from (fun r => date_cycle_ok r (_ord2ymd (r + 1))) (Z.to_nat _DI400Y) 0 = true.
Proof. vm_compute. reflexivity. Qed.

Lemma cycle_ok_all r : 0 <= r < _DI400Y -> date_cycle_ok r (_ord2ymd (r + 1)) = true.
Proof.
  intros Hr.
  apply (all_from_spec (fun r => date_cycle_ok r (_ord2ymd (r + 1)))
           (Z.to_nat _DI400Y) 0 cycle_all r).
  rewrite Z2Nat.id by discriminate. lia.
Qed.

Lemma is_leap_400 y q : _is_leap (y + 400 * q) = _is_leap y.
Proof.
  unfold _is_leap.
  replace (y + 400 * q) with (y + (100 * q) * 4) by ring. rewrite Z.mod_add by lia.
  replace (y + 100 * q * 4) with (y + (4 * q) * 100) by ring. rewrite Z.mod_add by lia.
  replace (y + 4 * q * 100) with (y + q * 400) by ring. rewrite Z.mod_add by lia.
  reflexivity.
Qed.

Lemma days_before_year_400 y q :
  _days_before_year (y + 400 * q) = _days_before_year y + _DI400Y * q.
Proof.
  unfold _days_before_year, _DI400Y.
  replace (y + 400 * q - 1) with ((y - 1) + (100 * q) * 4) by ring.
  rewrite Z.div_add by lia.
  replace ((y - 1) + 100 * q * 4) with ((y - 1) + (4 * q) * 100) by ring.
  rewrite Z.div_add by lia.
  replace ((y - 1) + 4 * q * 100) with ((y - 1) + q * 400) by ring.
  rewrite Z.div_add by lia. ring.
Qed.

Lemma ymd2ord_400 y m d q :
  _ymd2ord (y + 400 * q) m d = _ymd2ord y m d + _DI400Y * q.
Proof.
  unfold _ymd2ord, _days_before_month. rewrite days_before_year_400, is_leap_400. ring.
Qed.

Lemma days_in_month_400 y m q :
  _days_in_month (y + 400 * q) m = _days_in_month y m.
Proof. unfold _days_in_month. now rewrite is_leap_400. Qed.

(** [_ord2ymd] factors through the 400-year cycle. *)
Lemma ord2ymd_400 n :
  _ord2ymd n =
  let x := _ord2ymd ((n - 1) mod _DI400Y + 1) in
  mkdate (year x + 400 * ((n - 1) / _DI400Y)) (month x) (day x).
Proof.
  unfold _ord2ymd at 1 2.
  replace ((n - 1) mod _DI400Y + 1 - 1) with ((n - 1) mod _DI400Y) by ring.
  pose proof (Z.mod_pos_bound (n - 1) _DI400Y eq_refl) as Hr.
  rewrite (Z.div_small ((n - 1) mod _DI400Y) _DI400Y) by lia.
  rewrite (Z.mod_small ((n - 1) mod _DI400Y) _DI400Y) by lia.
  set (r := (n - 1) mod _DI400Y). set (q := (n - 1) / _DI400Y).
  cbv zeta.
  repeat match goal with |- context [if ?b then _ else _] => destruct b end;
    cbn [year month day]; f_equal; ring.
Qed.

Lemma date_cycle_ok_spec r x :
  date_cycle_ok r x = true ->
  _ymd2ord (year x) (month x) (day x) = r + 1 /\ 1 <= year x <= 400 /\
  (r <= 145730 -> year x <= 399) /\ 1 <= month x <= 12 /\
  1 <= day x <= _days_in_month (year x) (month x).
Proof.
  destruct x as [y m d]. unfold date_cycle_ok. cbn [year month day].
  intros Hc.
  repeat match goal with H : _ && _ = true |- _ => apply andb_prop in H as [? ?] end.
  match goal with H : implb _ _ = true |- _ => rename H into Himp end.
  rewrite ?Z.eqb_eq, ?Z.leb_le in *.
  assert (Hy399 : r <= 145730 -> y <= 399).
  { intros Hle. apply Z.leb_le in Hle. rewrite Hle in Himp. now apply Z.leb_le. }
  tauto.
Qed.

(** The arithmetic of one cycle shifted by [q] cycles. *)
Lemma roundtrip_core n q r y m d :
  1 <= n <= MAXORDINAL -> 0 <= r < _DI400Y -> n - 1 = _DI400Y * q + r ->
  _ymd2ord y m d = r + 1 -> 1 <= y <= 400 -> (r <= 145730 -> y <= 399) ->
  1 <= m <= 12 -> 1 <= d <= _days_in_month y m ->
  _ymd2ord (y + 400 * q) m d = n /\ valid_ymd (y + 400 * q) m d = true.
Proof.
  intros Hn Hr Hdm Ho Hy Hy399 Hm Hd.
  rewrite ymd2ord_400. unfold valid_ymd. rewrite days_in_month_400.
  unfold _DI400Y, MAXORDINAL in *.
  assert (Hq : 0 <= q <= 24) by lia.
  assert (Hq24 : q = 24 -> r <= 145730) by lia.
  split; [lia|].
  repeat rewrite andb_true_iff. rewrite !Z.leb_le. unfold MINYEAR, MAXYEAR. lia.
Qed.

Lemma fromordinal_400 n :
  fromordinal n =
  mkdate (year (_ord2ymd ((n - 1) mod _DI400Y + 1)) + 400 * ((n - 1) / _DI400Y))
         (month (_ord2ymd ((n - 1) mod _DI400Y + 1)))
         (day (_ord2ymd ((n - 1) mod _DI400Y + 1))).
Proof. unfold fromordinal. rewrite ord2ymd_400. reflexivity. Qed.

(** [date.fromordinal] and [date.toordinal] are inverse on the valid
    ordinals, and [fromordinal] builds a valid date. *)
Lemma fromordinal_roundtrip n :
  1 <= n <= MAXORDINAL ->
  toordinal (fromordinal n) = n /\ valid_date (fromordinal n) = true.
Proof.
  intros Hn.
  pose proof (Z.mod_pos_bound (n - 1) _DI400Y eq_refl) as Hr.
  pose proof (Z.div_mod (n - 1) _DI400Y ltac:(discriminate)) as Hdm.
  pose proof (date_cycle_ok_spec _ _ (cycle_ok_all _ Hr)) as Hc.
  rewrite fromordinal_400. unfold toordinal, valid_date. cbn [year month day].
  destruct Hc as (Ho & Hy & Hy399 & Hm & Hd).
  apply (roundtrip_core n ((n - 1) / _DI400Y) ((n - 1) mod _DI400Y)); assumption.
Qed.

Lemma date_add_days_spec x k c :
  date_add_days x k = Ok c ->
  toordinal c = toordinal x + k /\ valid_date c = true.
Proof.
  unfold date_add_days.
  destruct ((0 <? toordinal x + k) && (toordinal x + k <=? MAXORDINAL)) eqn:E;
    [|discriminate].
  intros [= <-]. apply andb_prop in E as [E1 E2].
  apply fromordinal_roundtrip. rewrite Z.ltb_lt in E1; rewrite Z.leb_le in E2; lia.
Qed.

Lemma mk_date_ok y m d x :
  mk_date y m d = Ok x -> x = mkdate y m d /\ valid_date x = true.
Proof.
  unfold mk_date. destruct (valid_ymd y m d) eqn:E; [|discriminate].
  intros [= <-]. split; [reflexivity | exact E].
Qed.

(** * Strings and the dict *)

Lemma pystr_eqb_eq a b : pystr_eqb a b = true <-> a = b.
Proof. unfold pystr_eqb. destruct (list_eq_dec Z.eq_dec a b); split; congruence. Qed.

Lemma pystr_eqb_refl a : pystr_eqb a a = true.
Proof. now apply pystr_eqb_eq. Qed.

Section DictLemmas.
Context `{UnicodeDB}.

Lemma dict_get_In (k : pystr) (s : book) v : dict_get k s = Some v -> In (k, v) s.
Proof.
  induction s as [|[k' v'] s IH]; simpl; [discriminate|].
  destruct (pystr_eqb k k') eqn:E.
  - apply pystr_eqb_eq in E as ->. intros [= ->]. now left.
  - intros Hg. right. now apply IH.
Qed.

Lemma dict_get_None (k : pystr) (s : book) : dict_get k s = None -> ~ In k (map fst s).
Proof.
  induction s as [|[k' v'] s IH]; simpl; [tauto|].
  destruct (pystr_eqb k k') eqn:E; [discriminate|].
  intros Hg [->|Hin]; [rewrite pystr_eqb_refl in E; discriminate | exact (IH Hg Hin)].
Qed.

Lemma NoDup_keys_unique {A B : Type} (s : list (A * B)) k a b :
  NoDup (map fst s) -> In (k, a) s -> In (k, b) s -> a = b.
Proof.
  induction s as [|[k' v'] s IH]; simpl; [tauto|].
  inversion 1 as [|? ? Hnin Hnd]; subst.
  intros [Ha|Ha] [Hb|Hb].
  - congruence.
  - injection Ha as -> ->. exfalso. apply Hnin. now apply (in_map fst) in Hb.
  - injection Hb as -> ->. exfalso. apply Hnin. now apply (in_map fst) in Ha.
  - exact (IH Hnd Ha Hb).
Qed.

Lemma dict_get_set_same (k : pystr) v (s : book) : dict_get k (dict_set k v s) = Some v.
Proof.
  induction s as [|[k' v'] s IH]; simpl.
  - now rewrite pystr_eqb_refl.
  - destruct (pystr_eqb k k') eqn:E; simpl; rewrite E; [reflexivity | exact IH].
Qed.

(** Storing back the record found under [k] leaves the dict as it was. *)
Lemma dict_set_get (k : pystr) v (s : book) : dict_get k s = Some v -> dict_set k v s = s.
Proof.
  induction s as [|[k' v'] s IH]; simpl; [discriminate|].
  destruct (pystr_eqb k k') eqn:E.
  - intros [= ->]. reflexivity.
  - intros Hg. now rewrite (IH Hg).
Qed.

Lemma dict_set_keys_new (k : pystr) v (s : book) :
  dict_get k s = None -> map fst (dict_set k v s) = map fst s ++ [k].
Proof.
  induction s as [|[k' v'] s IH]; simpl; [reflexivity|].
  destruct (pystr_eqb k k'); [discriminate|]. simpl. intros Hg. now rewrite IH.
Qed.

Lemma dict_set_keys_old (k : pystr) v (s : book) v0 :
  dict_get k s = Some v0 -> map fst (dict_set k v s) = map fst s.
Proof.
  induction s as [|[k' v'] s IH]; simpl; [discriminate|].
  destruct (pystr_eqb k k'); [reflexivity|]. simpl. intros Hg. now rewrite (IH Hg).
Qed.

Lemma dict_set_In (k : pystr) v (s : book) kv : In kv (dict_set k v s) -> In kv s \/ kv = (k, v).
Proof.
  induction s as [|[k' v'] s IH]; simpl.
  - intros [<-|[]]. now right.
  - destruct (pystr_eqb k k') eqn:E; simpl.
    + apply pystr_eqb_eq in E as <-. intros [<-|Hin]; [now right | tauto].
    + intros [<-|Hin]; [tauto|]. destruct (IH Hin); tauto.
Qed.

Lemma dict_del_sub (k : pystr) (s s' : book) :
  NoDup (map fst s) -> dict_del k s = Some s' ->
  NoDup (map fst s') /\ incl s' s.
Proof.
  revert s'; induction s as [|[k' v'] s IH]; intros s'; simpl; [discriminate|].
  inversion 1 as [|? ? Hnin Hnd]; subst.
  destruct (pystr_eqb k k').
  - intros [= <-]. split; [exact Hnd | intros x Hx; now right].
  - destruct (dict_del k s) as [s0|] eqn:E; simpl; [|discriminate].
    intros [= <-]. destruct (IH s0 Hnd eq_refl) as [Hnd0 Hinc].
    split.
    + simpl. constructor; [|exact Hnd0].
      intros Hin. apply Hnin. apply in_map_iff in Hin as [x [Hx Hin]].
      apply in_map_iff. exists x. split; [exact Hx | now apply Hinc].
    + intros x [<-|Hx]; [now left | right; now apply Hinc].
Qed.

(** Assigning [self.data[k] = v] for a record [v] named [k] with a valid
    name keeps the invariant. *)
Lemma store_inv_set (s : book) k v :
  store_inv s -> k = name v -> str_isalpha k = true -> store_inv (dict_set k v s).
Proof.
  intros [Hnd Hall] Hk Ha. split.
  - destruct (dict_get k s) as [v0|] eqn:E.
    + now rewrite (dict_set_keys_old k v s v0 E).
    + rewrite (dict_set_keys_new k v s E).
      apply NoDup_app; [exact Hnd | repeat constructor; simpl; tauto |].
      intros x Hx [<-|[]]. exact (dict_get_None k s E Hx).
  - apply Forall_forall. intros kv Hin.
    destruct (dict_set_In k v s kv Hin) as [Hin' | ->].
    + exact (proj1 (Forall_forall _ _) Hall kv Hin').
    + simpl. split; assumption.
Qed.

Lemma store_inv_get (s : book) k r :
  store_inv s -> dict_get k s = Some r -> k = name r /\ str_isalpha k = true.
Proof.
  intros [_ Hall] Hg. apply dict_get_In in Hg.
  exact (proj1 (Forall_forall _ _) Hall _ Hg).
Qed.

End DictLemmas.

(** * The birthday scheduler *)

Section UpcomingLemmas.
Context `{UnicodeDB}.

Lemma this_year_birthday_spec today b t :
  this_year_birthday today b = Ok t ->
  exists t0,
    date_replace_year b (year today) = Ok t0 /\
    (date_lt t0 today = true -> date_replace_year b (year today + 1) = Ok t) /\
    (date_lt t0 today = false -> t = t0).
Proof.
  unfold this_year_birthday.
  destruct (date_replace_year b (year today)) as [t0|e] eqn:E; simpl; [|discriminate].
  intros Ht. exists t0. split; [reflexivity|].
  pose proof E as E'. unfold date_replace_year in E'.
  apply mk_date_ok in E' as [-> _].
  destruct (date_lt _ today); split; intros Hlt; try discriminate.
  - exact Ht.
  - now injection Ht.
Qed.

Lemma upcoming_entry_cases today r b o :
  birthday r = Some b -> upcoming_entry today r = Ok o ->
  exists t, this_year_birthday today b = Ok t /\
    ((exists e, o = Some e) <-> 0 <= date_sub_days t today <= 7).
Proof.
  intros Hb. unfold upcoming_entry. rewrite Hb.
  destruct (this_year_birthday today b) as [t|e] eqn:Et; simpl; [|discriminate].
  intros Ho. exists t. split; [reflexivity|].
  destruct ((0 <=? date_sub_days t today) && (date_sub_days t today <=? 7)) eqn:Ew.
  - apply andb_prop in Ew as [E1 E2]. rewrite Z.leb_le in E1, E2.
    destruct (congratulation_shift t); simpl in Ho; [|discriminate].
    injection Ho as <-. split; [lia | intros _; eexists; reflexivity].
  - injection Ho as <-. split; [intros [e He]; discriminate|].
    intros Hw. rewrite andb_false_iff, !Z.leb_gt in Ew. lia.
Qed.

Lemma upcoming_entry_name today r e :
  upcoming_entry today r = Ok (Some e) -> e_name e = name r.
Proof.
  unfold upcoming_entry. destruct (birthday r); [|discriminate].
  destruct (this_year_birthday today d); simpl; [|discriminate].
  destruct (_ && _); [|discriminate].
  destruct (congratulation_shift a); simpl; [|discriminate].
  now intros [= <-].
Qed.

Lemma upcoming_loop_entry today vs l r :
  upcoming_loop today vs = Ok l -> In r vs ->
  exists o, upcoming_entry today r = Ok o.
Proof.
  revert l; induction vs as [|r' vs IH]; intros l; simpl; [tauto|].
  destruct (upcoming_entry today r') as [o|e] eqn:E; simpl; [|discriminate].
  destruct (upcoming_loop today vs) as [l'|e] eqn:E'; simpl; [|discriminate].
  intros _ [<-|Hin]; [now exists o | exact (IH l' eq_refl Hin)].
Qed.

Lemma upcoming_loop_In today vs l e :
  upcoming_loop today vs = Ok l ->
  (In e l <-> exists r, In r vs /\ upcoming_entry today r = Ok (Some e)).
Proof.
  revert l; induction vs as [|r' vs IH]; intros l; simpl.
  - intros [= <-]. split; [intros []| intros [r [[] _]]].
  - destruct (upcoming_entry today r') as [o|e'] eqn:E; simpl; [|discriminate].
    destruct (upcoming_loop today vs) as [l'|e'] eqn:E'; simpl; [|discriminate].
    intros [= <-]. specialize (IH l' eq_refl).
    split.
    + intros Hin. destruct o as [e'|].
      * destruct Hin as [<-|Hin]; [exists r'; tauto|].
        apply IH in Hin as [r [Hr He]]. exists r; tauto.
      * apply IH in Hin as [r [Hr He]]. exists r; tauto.
    + intros [r [[<-|Hr] He]].
      * rewrite E in He. injection He as ->. now left.
      * assert (Hl : In e l') by (apply IH; exists r; tauto).
        destruct o; [now right | exact Hl].
Qed.

Lemma this_year_birthday_valid today b t :
  this_year_birthday today b = Ok t -> valid_date t = true.
Proof.
  unfold this_year_birthday, date_replace_year.
  destruct (mk_date (year today) (month b) (day b)) as [t0|] eqn:E; simpl; [|discriminate].
  destruct (date_lt t0 today).
  - intros Ht. now apply mk_date_ok in Ht.
  - intros [= <-]. now apply mk_date_ok in E.
Qed.

Lemma weekday_range x : 0 <= weekday x <= 6.
Proof. unfold weekday. pose proof (Z.mod_pos_bound (toordinal x + 6) 7). lia. Qed.

Lemma congratulation_shift_spec t c :
  valid_date t = true -> congratulation_shift t = Ok c ->
  toordinal c = toordinal t
                + (if weekday t =? 5 then 2 else if weekday t =? 6 then 1 else 0) /\
  (weekday t <= 4 -> c = t) /\ valid_date c = true /\ weekday c <= 4.
Proof.
  intros Hv. unfold congratulation_shift.
  pose proof (weekday_range t) as Hw.
  destruct (Z.eqb_spec (weekday t) 5) as [E5|N5].
  - intros Hc. apply date_add_days_spec in Hc as [Ho Hvc].
    rewrite E5. split; [exact Ho|]. split; [lia|]. split; [exact Hvc|].
    unfold weekday in *. rewrite Ho. Z.div_mod_to_equations. lia.
  - destruct (Z.eqb_spec (weekday t) 6) as [E6|N6].
    + intros Hc. apply date_add_days_spec in Hc as [Ho Hvc].
      rewrite E6. split; [exact Ho|]. split; [lia|]. split; [exact Hvc|].
      unfold weekday in *. rewrite Ho. Z.div_mod_to_equations. lia.
    + intros [= <-]. split; [ring|]. split; [reflexivity|]. split; [exact Hv|]. lia.
Qed.

End UpcomingLemmas.

(** * Address-book methods *)

Section StoreLemmas.
Context `{UnicodeDB}.

Lemma Record_new_ok n r :
  Record_new n = Ok r -> r = mkrecord n [] None /\ str_isalpha n = true.
Proof.
  unfold Record_new, validate_name.
  destruct (str_isalpha n); simpl; [|discriminate]. now intros [= <-].
Qed.

Lemma Record_new_err n :
  str_isalpha n = false ->
  Record_new n = Err (ValidationException (pystr_of "Name must contain only letters")).
Proof. unfold Record_new, validate_name. now intros ->. Qed.

Lemma add_phone_name r p r' : add_phone r p = Ok r' -> name r' = name r.
Proof.
  unfold add_phone. destruct (validate_phone p); simpl; [|discriminate].
  now intros [= <-].
Qed.

Lemma edit_phone_absent r old_phone new_phone :
  ~ In old_phone (phones r) -> edit_phone r old_phone new_phone = r.
Proof.
  destruct r as [n ps b]. unfold edit_phone. simpl. intros Hnin. f_equal.
  induction ps as [|p ps IH]; simpl in *; [reflexivity|].
  destruct (pystr_eqb p old_phone) eqn:E.
  - apply pystr_eqb_eq in E. exfalso. apply Hnin. now left.
  - f_equal. apply IH. tauto.
Qed.

Lemma add_contact_inv s n phone :
  store_inv s -> store_inv (snd (add_contact n phone s)).
Proof.
  intros Hinv.
  unfold add_contact, bind, find_rec, lift, ret, add_record, store_record.
  destruct (dict_get n s) as [r|] eqn:Hg.
  - destruct (store_inv_get s n r Hinv Hg) as [Hn Ha].
    destruct (truthy phone) as [p|]; [|exact Hinv].
    destruct (add_phone r p) as [r'|e] eqn:Hp; simpl; [|exact Hinv].
    apply store_inv_set; [exact Hinv | rewrite (add_phone_name r p r' Hp); exact Hn | exact Ha].
  - destruct (Record_new n) as [r|e] eqn:Hr; simpl; [|exact Hinv].
    destruct (Record_new_ok n r Hr) as [-> Ha].
    assert (Hinv1 : store_inv (dict_set n (mkrecord n [] None) s))
      by (apply store_inv_set; auto).
    destruct (truthy phone) as [p|]; [|exact Hinv1].
    destruct (add_phone (mkrecord n [] None) p) as [r'|e] eqn:Hp; simpl; [|exact Hinv1].
    apply store_inv_set; [exact Hinv1 | rewrite (add_phone_name _ p r' Hp); reflexivity | exact Ha].
Qed.

Lemma change_contact_inv s n o p :
  store_inv s -> store_inv (snd (change_contact n o p s)).
Proof.
  intros Hinv. unfold change_contact, bind, find_rec, store_record, ret, raise.
  destruct (dict_get n s) as [r|] eqn:Hg; simpl; [|exact Hinv].
  destruct (store_inv_get s n r Hinv Hg) as [Hn Ha].
  apply store_inv_set; [exact Hinv | exact Hn | exact Ha].
Qed.

Lemma delete_inv s n : store_inv s -> store_inv (snd (delete n s)).
Proof.
  intros [Hnd Hall]. unfold delete.
  destruct (dict_del n s) as [s'|] eqn:Hd; simpl; [|split; assumption].
  destruct (dict_del_sub n s s' Hnd Hd) as [Hnd' Hinc].
  split; [exact Hnd'|]. apply Forall_forall. intros kv Hin.
  exact (proj1 (Forall_forall _ _) Hall kv (Hinc kv Hin)).
Qed.

End StoreLemmas.

(** * Claims *)

Section Claims.
Context `{UnicodeDB}.

(** C1. For every record of the book with a birthday, when
    [get_upcoming_birthdays] returns, the result has an entry for that
    record's name exactly when this year's occurrence of the birthday
    (moved to next year when strictly earlier than [today]) lies 0 to 7
    days (inclusive) after [today]. *)
Theorem upcoming_birthdays_window today s l k r b :
  store_inv s ->
  fst (get_upcoming_birthdays today s) = Ok l ->
  dict_get k s = Some r -> birthday r = Some b ->
  exists t0 t,
    date_replace_year b (year today) = Ok t0 /\
    (date_lt t0 today = true -> date_replace_year b (year today + 1) = Ok t) /\
    (date_lt t0 today = false -> t = t0) /\
    ((exists e, In e l /\ e_name e = name r) <-> 0 <= date_sub_days t today <= 7).
Proof.
  intros Hinv Hl Hk Hb. simpl in Hl.
  assert (Hr : In r (map snd s)) by (apply dict_get_In in Hk; now apply (in_map snd) in Hk).
  destruct (upcoming_loop_entry today _ l r Hl Hr) as [o Ho].
  destruct (upcoming_entry_cases today r b o Hb Ho) as [t [Ht Hw]].
  destruct (this_year_birthday_spec today b t Ht) as [t0 [H0 [H1 H2]]].
  exists t0, t. split; [exact H0|]. split; [exact H1|]. split; [exact H2|].
  rewrite <- Hw. split.
  - intros [e [He Hn]]. exists e.
    apply (upcoming_loop_In today _ l e Hl) in He as [r' [Hr' He']].
    rewrite (upcoming_entry_name today r' e He') in Hn.
    apply in_map_iff in Hr' as [[k' r''] [Hsnd Hin']]. simpl in Hsnd. subst r''.
    destruct Hinv as [Hnd Hall].
    pose proof (proj1 (Forall_forall _ _) Hall _ Hin') as [Hk' _].
    pose proof (proj1 (Forall_forall _ _) Hall _ (dict_get_In _ _ _ Hk)) as [Hkk _].
    simpl in Hk', Hkk.
    assert (r' = r) as ->.
    { apply (NoDup_keys_unique s k'); [exact Hnd | exact Hin' |].
      rewrite Hk', Hn, <- Hkk. now apply dict_get_In. }
    rewrite Ho in He'. injection He' as ->. reflexivity.
  - intros [e ->]. exists e. split.
    + apply (upcoming_loop_In today _ l e Hl). exists r; tauto.
    + exact (upcoming_entry_name today r e Ho).
Qed.

(** C2. For every entry produced for a record, the congratulation date is
    this year's occurrence moved by 2 days when it is a Saturday, by 1 day
    when it is a Sunday, and left unchanged from Monday to Friday; it is a
    valid date falling on a weekday. *)
Theorem congratulation_date_weekday today r e :
  upcoming_entry today r = Ok (Some e) ->
  exists b t c,
    birthday r = Some b /\ this_year_birthday today b = Ok t /\
    0 <= date_sub_days t today <= 7 /\
    e_congratulation_date e = strftime_ymd c /\
    toordinal c = toordinal t
                  + (if weekday t =? 5 then 2 else if weekday t =? 6 then 1 else 0) /\
    (weekday t <= 4 -> c = t) /\
    valid_date c = true /\ weekday c <= 4.
Proof.
  intros He. pose proof He as He0. unfold upcoming_entry in He.
  destruct (birthday r) as [b|] eqn:Hb; [|discriminate].
  destruct (this_year_birthday today b) as [t|] eqn:Ht; simpl in He; [|discriminate].
  destruct ((0 <=? date_sub_days t today) && (date_sub_days t today <=? 7)) eqn:Ew;
    [|discriminate].
  destruct (congratulation_shift t) as [c|] eqn:Hc; simpl in He; [|discriminate].
  injection He as <-.
  apply andb_prop in Ew as [E1 E2]. rewrite Z.leb_le in E1, E2.
  destruct (congratulation_shift_spec t c (this_year_birthday_valid today b t Ht) Hc)
    as [Ho [Hid [Hv Hwd]]].
  exists b, t, c. repeat split; auto; lia.
Qed.

(** C5 (as the code does it). [edit_phone] replaces every phone equal to
    [old_phone], keeps every other phone at its position, keeps the name and
    the birthday, and leaves the record as it was when no phone matches. *)
Theorem edit_phone_replaces_matches r old_phone new_phone :
  name (edit_phone r old_phone new_phone) = name r /\
  birthday (edit_phone r old_phone new_phone) = birthday r /\
  List.length (phones (edit_phone r old_phone new_phone)) = List.length (phones r) /\
  (forall i p, nth_error (phones r) i = Some p ->
     nth_error (phones (edit_phone r old_phone new_phone)) i
     = Some (if pystr_eqb p old_phone then new_phone else p)) /\
  (~ In old_phone (phones r) -> edit_phone r old_phone new_phone = r).
Proof.
  split; [reflexivity|]. split; [reflexivity|].
  split; [apply length_map|]. split.
  - intros i p Hi. unfold edit_phone. simpl. now rewrite nth_error_map, Hi.
  - apply edit_phone_absent.
Qed.

(** C7 (as the code does it). For a name absent from the book that passes
    [validate_name]: with a NON-EMPTY phone string that fails
    [validate_phone], [add_contact] raises the phone's [ValidationException]
    and the new record, without phones, stays in the book; with an EMPTY phone
    string the [if phone:] guard treats it as no phone, and the contact is
    added, with no phones, without error. *)
Theorem add_contact_invalid_phone_keeps_record s n p e :
  dict_get n s = None -> str_isalpha n = true ->
  (p <> [] -> validate_phone p = Err e ->
   add_contact n (Some p) s = (Err e, dict_set n (mkrecord n [] None) s) /\
   dict_get n (dict_set n (mkrecord n [] None) s) = Some (mkrecord n [] None)) /\
  add_contact n (Some []) s = add_contact n None s /\
  add_contact n (Some []) s
  = (Ok (pystr_of "Contact added."), dict_set n (mkrecord n [] None) s).
Proof.
  intros Hg Ha.
  unfold add_contact, bind, find_rec, lift, ret, add_record, store_record.
  rewrite Hg. unfold Record_new, validate_name. rewrite Ha. simpl.
  split; [|split; reflexivity].
  intros Hp Hv. split; [|apply dict_get_set_same].
  destruct p as [|c p]; [congruence|]. simpl.
  unfold add_phone. rewrite Hv. reflexivity.
Qed.

(** C8. [change_contact] fails exactly when the name has no record, and then
    raises [KeyError('Contact not found.')]; for a known name none of whose
    phones equals [old_phone] it returns ["Phone number updated."] and the
    book, phones included, is unchanged. *)
Theorem change_contact_missing_or_noop s n old_phone new_phone :
  ((exists e, fst (change_contact n old_phone new_phone s) = Err e)
     <-> dict_get n s = None) /\
  (dict_get n s = None ->
     change_contact n old_phone new_phone s
     = (Err (KeyError (pystr_of "Contact not found.")), s)) /\
  (forall r, dict_get n s = Some r -> ~ In old_phone (phones r) ->
     change_contact n old_phone new_phone s
     = (Ok (pystr_of "Phone number updated."), s) /\
     dict_get n (snd (change_contact n old_phone new_phone s)) = Some r).
Proof.
  unfold change_contact, bind, find_rec, store_record, ret, raise.
  destruct (dict_get n s) as [r|] eqn:Hg; simpl.
  - split; [split; [intros [e He]; discriminate | discriminate]|].
    split; [discriminate|].
    intros r' [= <-] Hnin. rewrite (edit_phone_absent r old_phone new_phone Hnin).
    rewrite (dict_set_get n r s Hg). split; [reflexivity | exact Hg].
  - split; [split; [reflexivity | intros _; eexists; reflexivity]|].
    split; [reflexivity | discriminate].
Qed.

(** C9. Every store operation, whether it returns or raises, keeps the
    invariant of the book: distinct keys, each mapped to a record named by
    the key, whose name is a non-empty string of letters ([str.isalpha]).
    [add_record] receives [Record] objects, whose names
    [Record.__init__] validated. *)
Theorem store_ops_preserve_inv op s :
  store_inv s -> op_ok op = true -> store_inv (run_op op s).
Proof.
  intros Hinv Hok. destruct op as [r|n|n|today|n phone|n o p|n|]; simpl in *.
  - apply store_inv_set; [exact Hinv | reflexivity | exact Hok].
  - exact Hinv.
  - now apply delete_inv.
  - exact Hinv.
  - now apply add_contact_inv.
  - now apply change_contact_inv.
  - unfold show_phone, bind, find_rec, ret, raise.
    destruct (dict_get n s); exact Hinv.
  - unfold show_all. destruct s; exact Hinv.
Qed.

(** C10. For a name absent from the book that fails [validate_name],
    [add_contact] raises [ValidationException] and the book is unchanged,
    whatever the phone. *)
Theorem add_contact_invalid_name s n phone :
  dict_get n s = None -> str_isalpha n = false ->
  add_contact n phone s
  = (Err (ValidationException (pystr_of "Name must contain only letters")), s).
Proof.
  intros Hg Ha. unfold add_contact, bind, find_rec, lift.
  rewrite Hg, (Record_new_err n Ha). reflexivity.
Qed.

End Claims.

(** C3 (defect). With [today = 10.06.2024] and Bob's birthday [15.06.1990]
    (Saturday 15.06.2024), the entry's ["birthday"] field is the shifted
    Monday ["17.06.2024"], not this year's occurrence ["15.06.2024"]: line
    116 formats [congratulation_date] instead of [this_year_birthday]. *)
Theorem upcoming_birthday_field_shifted :
  this_year_birthday june10 (mkdate 1990 6 15) = Ok (mkdate 2024 6 15) /\
  weekday (mkdate 2024 6 15) = 5 /\
  get_upcoming_birthdays june10 bob_book = (Ok [bob_entry], bob_book) /\
  e_birthday bob_entry <> strftime_dmy (mkdate 2024 6 15).
Proof.
  split; [reflexivity|]. split; [reflexivity|]. split; [vm_compute; reflexivity|].
  vm_compute. discriminate.
Qed.

(** C4. A record whose birthday is [29.02.2000] (a valid date), with
    [today] in the common year 2023: [get_upcoming_birthdays] raises
    [ValueError] from [birthday.replace(year=2023)]. *)
Theorem upcoming_birthdays_feb29_raises :
  mk_date 2000 2 29 = Ok (mkdate 2000 2 29) /\
  _is_leap 2023 = false /\
  date_replace_year (mkdate 2000 2 29) 2023 = Err ValueError /\
  get_upcoming_birthdays (mkdate 2023 6 10) leap_book = (Err ValueError, leap_book).
Proof. repeat split; vm_compute; reflexivity. Qed.

(** C5, counterexample. A record holding [phone1] twice: editing [phone1]
    to [phone2] replaces both copies, so the later duplicate is not kept. *)
Theorem edit_phone_twin_counterexample :
  phones (edit_phone twin_record phone1 phone2) = [phone2; phone2] /\
  nth_error (phones (edit_phone twin_record phone1 phone2)) 1 <> Some phone1.
Proof. split; vm_compute; [reflexivity | discriminate]. Qed.

(** C6 (defect). [edit_phone] never builds a [Phone], so
    [change_contact("Anna", "1234567890", "abc")] stores ["abc"], a value
    [validate_phone] rejects, and reports success. *)
Theorem edit_phone_stores_invalid_phone :
  validate_phone (pystr_of "abc")
  = Err (ValidationException (pystr_of "Phone number must be 10 digits")) /\
  change_contact anna phone1 (pystr_of "abc") anna_book
  = (Ok (pystr_of "Phone number updated."),
     [(anna, mkrecord anna [pystr_of "abc"] None)]).
Proof. split; vm_compute; reflexivity. Qed.

(** C7, counterexample. The empty string fails [validate_phone], yet
    [add_contact("Anna", "")] on an empty book raises nothing: [if phone:]
    treats it as no phone. *)
Theorem add_contact_empty_phone_counterexample :
  validate_phone []
  = Err (ValidationException (pystr_of "Phone number must be 10 digits")) /\
  add_contact anna (Some []) []
  = (Ok (pystr_of "Contact added."), [(anna, mkrecord anna [] None)]).
Proof. split; vm_compute; reflexivity. Qed.

(** * Witnesses: the claims' hypotheses hold on concrete inputs *)

Lemma bob_book_inv : store_inv bob_book.
Proof. split; repeat constructor; simpl; tauto. Qed.

Lemma anna_book_inv : store_inv anna_book.
Proof. split; repeat constructor; simpl; tauto. Qed.

Lemma upcoming_birthdays_window_witness :
  store_inv bob_book /\
  fst (get_upcoming_birthdays june10 bob_book) = Ok [bob_entry] /\
  exists t0 t,
    date_replace_year (mkdate 1990 6 15) (year june10) = Ok t0 /\
    (date_lt t0 june10 = true ->
     date_replace_year (mkdate 1990 6 15) (year june10 + 1) = Ok t) /\
    (date_lt t0 june10 = false -> t = t0) /\
    ((exists e, In e [bob_entry] /\ e_name e = name bob_record)
     <-> 0 <= date_sub_days t june10 <= 7).
Proof.
  split; [exact bob_book_inv|]. split; [vm_compute; reflexivity|].
  apply (upcoming_birthdays_window june10 bob_book [bob_entry] (pystr_of "Bob")
           bob_record (mkdate 1990 6 15));
    [exact bob_book_inv | vm_compute; reflexivity | vm_compute; reflexivity
    | reflexivity].
Defined.

Lemma congratulation_date_weekday_witness :
  upcoming_entry june9 sue_record = Ok (Some sue_entry) /\
  date_sub_days (mkdate 2024 6 17) june9 = 8 /\
  exists b t c,
    birthday sue_record = Some b /\ this_year_birthday june9 b = Ok t /\
    0 <= date_sub_days t june9 <= 7 /\
    e_congratulation_date sue_entry = strftime_ymd c /\
    toordinal c = toordinal t
                  + (if weekday t =? 5 then 2 else if weekday t =? 6 then 1 else 0) /\
    (weekday t <= 4 -> c = t) /\
    valid_date c = true /\ weekday c <= 4.
Proof.
  split; [vm_compute; reflexivity|]. split; [vm_compute; reflexivity|].
  apply (congratulation_date_weekday june9 sue_record sue_entry).
  vm_compute. reflexivity.
Defined.

Lemma edit_phone_replaces_matches_witness :
  ~ In phone2 (phones twin_record) /\
  edit_phone twin_record phone2 phone1 = twin_record /\
  nth_error (phones (edit_phone twin_record phone1 phone2)) 1 = Some phone2.
Proof.
  assert (Hnin : ~ In phone2 (phones twin_record))
    by (vm_compute; intros [Hx|[Hx|[]]]; discriminate).
  split; [exact Hnin|]. split.
  - exact (proj2 (proj2 (proj2 (proj2
             (edit_phone_replaces_matches twin_record phone2 phone1)))) Hnin).
  - exact (proj1 (proj2 (proj2 (proj2
             (edit_phone_replaces_matches twin_record phone1 phone2)))) 1%nat phone1
             eq_refl).
Defined.

Lemma add_contact_invalid_phone_keeps_record_witness :
  dict_get anna anna_book = Some (mkrecord anna [phone1] None) /\
  add_contact (pystr_of "Bob") (Some (pystr_of "12")) anna_book
  = (Err (ValidationException (pystr_of "Phone number must be 10 digits")),
     dict_set (pystr_of "Bob") (mkrecord (pystr_of "Bob") [] None) anna_book) /\
  add_contact (pystr_of "Bob") (Some []) anna_book
  = (Ok (pystr_of "Contact added."),
     dict_set (pystr_of "Bob") (mkrecord (pystr_of "Bob") [] None) anna_book).
Proof.
  assert (Hg : dict_get (pystr_of "Bob") anna_book = None) by (vm_compute; reflexivity).
  assert (Ha : str_isalpha (pystr_of "Bob") = true) by reflexivity.
  destruct (add_contact_invalid_phone_keeps_record anna_book (pystr_of "Bob")
              (pystr_of "12")
              (ValidationException (pystr_of "Phone number must be 10 digits")) Hg Ha)
    as [Hbad [_ Hempty]].
  split; [vm_compute; reflexivity|]. split; [|exact Hempty].
  apply Hbad; [discriminate | vm_compute; reflexivity].
Defined.

Lemma change_contact_missing_or_noop_witness :
  change_contact (pystr_of "Zed") phone2 phone1 anna_book
  = (Err (KeyError (pystr_of "Contact not found.")), anna_book) /\
  change_contact anna phone2 phone1 anna_book
  = (Ok (pystr_of "Phone number updated."), anna_book).
Proof.
  split.
  - exact (proj1 (proj2 (change_contact_missing_or_noop anna_book (pystr_of "Zed")
                          phone2 phone1)) ltac:(vm_compute; reflexivity)).
  - exact (proj1 (proj2 (proj2 (change_contact_missing_or_noop anna_book anna
                                  phone2 phone1))
                    (mkrecord anna [phone1] None) ltac:(vm_compute; reflexivity)
                    ltac:(vm_compute; intros [Hx|[]]; discriminate))).
Defined.

Lemma store_ops_preserve_inv_witness :
  store_inv (run_op (OpAddContact (pystr_of "Bob") (Some (pystr_of "12"))) anna_book).
Proof.
  apply store_ops_preserve_inv; [exact anna_book_inv | reflexivity].
Defined.

Lemma add_contact_invalid_name_witness :
  add_contact (pystr_of "Ann4") (Some phone1) anna_book
  = (Err (ValidationException (pystr_of "Name must contain only letters")), anna_book).
Proof.
  apply add_contact_invalid_name; vm_compute; reflexivity.
Defined.

(** * Records, store methods, handlers and the shell loop *)

Section RemovePhone.
Context `{UnicodeDB} `{UnicodeText}.


Lemma firstn_prefix {A} (l1 l2 : list A) n :
  List.length l1 = n -> firstn n (l1 ++ l2) = l1 /\ skipn n (l1 ++ l2) = l2.
Proof.
  intros <-. induction l1 as [|a l1 IH]; simpl; [split; reflexivity|].
  destruct IH as [-> ->]. split; reflexivity.
Qed.

Lemma remove_phone_loop_skip phone fuel : forall i ps,
  (List.length ps <= i + fuel)%nat ->
  remove_phone_loop phone fuel i ps = firstn i ps ++ remove_skip phone (skipn i ps).
Proof.
  induction fuel as [|f IH]; intros i ps Hlen; simpl.
  - rewrite firstn_all2, skipn_all2 by lia. simpl. now rewrite app_nil_r.
  - destruct (nth_error ps i) as [p|] eqn:Hn.
    + destruct (nth_error_split ps i Hn) as [A [B [-> HA]]].
      rewrite length_app in Hlen. simpl in Hlen.
      destruct (firstn_prefix A (p :: B) i HA) as [-> ->].
      destruct (pystr_eqb p phone) eqn:E.
      * assert (Hrm : remove_at i (A ++ p :: B) = A ++ B).
        { unfold remove_at. destruct (firstn_prefix A (p :: B) i HA) as [-> _].
          replace (S i) with (1 + i)%nat by lia.
          rewrite <- skipn_skipn. destruct (firstn_prefix A (p :: B) i HA) as [_ ->].
          reflexivity. }
        rewrite Hrm, IH by (rewrite length_app; lia).
        destruct B as [|q B].
        -- rewrite app_nil_r, firstn_all2, skipn_all2 by lia. simpl. now rewrite E.
        -- replace (S i) with (List.length (A ++ [q])) by (rewrite length_app; simpl; lia).
           replace (A ++ q :: B) with ((A ++ [q]) ++ B) by (now rewrite <- app_assoc).
           destruct (firstn_prefix (A ++ [q]) B _ eq_refl) as [-> ->].
           simpl. rewrite E. now rewrite <- app_assoc.
      * rewrite IH by (rewrite length_app; simpl; lia).
        replace (S i) with (List.length (A ++ [p])) by (rewrite length_app; simpl; lia).
        replace (A ++ p :: B) with ((A ++ [p]) ++ B) by (now rewrite <- app_assoc).
        destruct (firstn_prefix (A ++ [p]) B _ eq_refl) as [-> ->].
        simpl. rewrite E. now rewrite <- app_assoc.
    + apply nth_error_None in Hn.
      rewrite firstn_all2, skipn_all2 by lia. simpl. now rewrite app_nil_r.
Qed.

Lemma remove_phone_phones r phone :
  phones (remove_phone r phone) = remove_skip phone (phones r).
Proof.
  unfold remove_phone. simpl. rewrite remove_phone_loop_skip by lia. reflexivity.
Qed.


Lemma remove_skip_ind (P : list pystr -> Prop) :
  P [] -> (forall p, P [p]) -> (forall p q l, P l -> P (q :: l) -> P (p :: q :: l)) ->
  forall l, P l.
Proof.
  intros Hnil Hone Hcons.
  assert (forall n l, (List.length l <= n)%nat -> P l) as Hn.
  { induction n as [|n IH]; intros l Hl.
    - destruct l; [exact Hnil | simpl in Hl; lia].
    - destruct l as [|p [|q l]]; [exact Hnil | apply Hone |].
      simpl in Hl. apply Hcons; apply IH; simpl; lia. }
  intros l. exact (Hn _ l (le_n _)).
Qed.

Lemma remove_skip_filter phone ps :
  filter (differs phone) (remove_skip phone ps) = filter (differs phone) ps.
Proof.
  induction ps as [| p |p q l IHl IHql] using remove_skip_ind; [reflexivity| |].
  - unfold differs. simpl. destruct (pystr_eqb p phone) eqn:E; simpl; [reflexivity|].
    now rewrite E.
  - assert (Heq : remove_skip phone (p :: q :: l)
                  = if pystr_eqb p phone then q :: remove_skip phone l
                    else p :: remove_skip phone (q :: l)) by reflexivity.
    rewrite Heq. set (R := remove_skip phone (q :: l)) in *.
    unfold differs in *. destruct (pystr_eqb p phone) eqn:E; simpl in *; rewrite E; simpl.
    + destruct (pystr_eqb q phone); simpl; now rewrite IHl.
    + f_equal. exact IHql.
Qed.

Lemma remove_skip_absent phone ps : ~ In phone ps -> remove_skip phone ps = ps.
Proof.
  induction ps as [|p ps IH]; simpl; [reflexivity|]. intros Hn.
  destruct (pystr_eqb p phone) eqn:E.
  - apply pystr_eqb_eq in E. tauto.
  - f_equal. apply IH. tauto.
Qed.

Lemma remove_skip_app phone A B :
  ~ In phone A -> remove_skip phone (A ++ B) = A ++ remove_skip phone B.
Proof.
  induction A as [|a A IH]; simpl; [reflexivity|]. intros Hn.
  destruct (pystr_eqb a phone) eqn:E.
  - apply pystr_eqb_eq in E. tauto.
  - f_equal. apply IH. tauto.
Qed.

Lemma remove_skip_pair phone l1 l2 :
  In phone (remove_skip phone (l1 ++ phone :: phone :: l2)).
Proof.
  revert l1. induction l1 as [| |p q l IHl IHql] using remove_skip_ind; simpl.
  - rewrite pystr_eqb_refl. now left.
  - destruct (pystr_eqb p phone) eqn:E; simpl.
    + now left.
    + right. rewrite pystr_eqb_refl. now left.
  - destruct (pystr_eqb p phone) eqn:E; simpl.
    + right. exact IHl.
    + right. exact IHql.
Qed.

End RemovePhone.

Section Methods.
Context `{UnicodeDB}.

Lemma find_phone_iff r p :
  (find_phone r p = Some p <-> In p (phones r)) /\
  (find_phone r p = None <-> ~ In p (phones r)).
Proof.
  destruct r as [n ps b]. unfold find_phone. simpl.
  induction ps as [|q ps IH]; simpl.
  - split; split; try discriminate; tauto.
  - destruct (pystr_eqb q p) eqn:E.
    + apply pystr_eqb_eq in E as ->. split; split; auto; try discriminate.
      all: intros Hn; exfalso; apply Hn; now left.
    + assert (q <> p) by (intros ->; now rewrite pystr_eqb_refl in E).
      destruct IH as [IH1 IH2]. rewrite IH1, IH2. split; split; intros; tauto.
Qed.

(** [Record.find_phone] returns the phone it was asked for exactly when the record
    holds it, and [None] exactly when it does not. *)
Theorem find_phone_spec r p :
  (find_phone r p = Some p <-> In p (phones r)) /\
  (find_phone r p = None <-> ~ In p (phones r)).
Proof. exact (find_phone_iff r p). Qed.

(** A successful [Record.add_phone] appends the phone at the end, after which
    [find_phone] finds it; name and birthday are kept, and the phone stored has
    ten digits. *)
Theorem add_phone_then_find r p r' :
  add_phone r p = Ok r' ->
  phones r' = phones r ++ [p] /\ find_phone r' p = Some p /\
  name r' = name r /\ birthday r' = birthday r /\
  List.length p = 10%nat /\ forallb cp_isdigit p = true.
Proof.
  unfold add_phone, validate_phone, str_isdigit.
  destruct (negb match p with [] => false | _ => forallb cp_isdigit p end
            || negb (Nat.eqb (List.length p) 10)) eqn:E; simpl; [discriminate|].
  intros [= <-]. simpl.
  apply orb_false_iff in E as [E1 E2]. apply negb_false_iff in E1, E2.
  apply Nat.eqb_eq in E2.
  repeat split; try assumption.
  - apply (find_phone_iff (mkrecord (name r) (phones r ++ [p]) (birthday r)) p).
    simpl. apply in_or_app. right. now left.
  - destruct p; [discriminate | exact E1].
Qed.

Lemma dict_get_set_other (k k' : pystr) v (s : book) :
  k <> k' -> dict_get k (dict_set k' v s) = dict_get k s.
Proof.
  intros Hne. induction s as [|[k0 v0] s IH]; simpl.
  - destruct (pystr_eqb k k') eqn:E; [apply pystr_eqb_eq in E; congruence | reflexivity].
  - destruct (pystr_eqb k' k0) eqn:E0; simpl.
    + apply pystr_eqb_eq in E0 as ->.
      destruct (pystr_eqb k k0) eqn:E; [apply pystr_eqb_eq in E; congruence | reflexivity].
    + destruct (pystr_eqb k k0); [reflexivity | exact IH].
Qed.

(** [AddressBook.add_record] stores the record under its name, leaves every other
    key as it was, and appends a new key at the end of the insertion order while
    an existing key keeps its place. *)
Theorem add_record_find r s :
  dict_get (name r) (snd (add_record r s)) = Some r /\
  (forall k, k <> name r -> dict_get k (snd (add_record r s)) = dict_get k s) /\
  (dict_get (name r) s = None -> map fst (snd (add_record r s)) = map fst s ++ [name r]) /\
  (forall r0, dict_get (name r) s = Some r0 -> map fst (snd (add_record r s)) = map fst s).
Proof.
  simpl. split; [apply dict_get_set_same|]. split; [intros k Hk; now apply dict_get_set_other|].
  split; [apply dict_set_keys_new|]. intros r0. apply dict_set_keys_old.
Qed.

Lemma dict_del_get (k : pystr) (s : book) :
  dict_get k s = None <-> dict_del k s = None.
Proof.
  induction s as [|[k' v'] s IH]; simpl; [tauto|].
  destruct (pystr_eqb k k'); [split; discriminate|].
  rewrite IH. destruct (dict_del k s); simpl; split; intros Hx; try discriminate Hx; reflexivity.
Qed.

Lemma dict_del_get_after (k : pystr) (s s' : book) :
  NoDup (map fst s) -> dict_del k s = Some s' ->
  dict_get k s' = None /\ forall k', k' <> k -> dict_get k' s' = dict_get k' s.
Proof.
  revert s'; induction s as [|[k0 v0] s IH]; intros s'; simpl; [discriminate|].
  inversion 1 as [|? ? Hnin Hnd]; subst.
  destruct (pystr_eqb k k0) eqn:E.
  - apply pystr_eqb_eq in E as ->. intros [= <-]. split.
    + destruct (dict_get k0 s) as [v|] eqn:Hg; [|reflexivity].
      apply dict_get_In, (in_map fst) in Hg. contradiction.
    + intros k' Hk'. destruct (pystr_eqb k' k0) eqn:E'; [apply pystr_eqb_eq in E'; congruence|].
      reflexivity.
  - destruct (dict_del k s) as [s0|] eqn:Hd; simpl; [|discriminate].
    intros [= <-]. destruct (IH s0 Hnd eq_refl) as [Hk Hoth]. simpl. rewrite E. split.
    + exact Hk.
    + intros k' Hk'. destruct (pystr_eqb k' k0); [reflexivity | now apply Hoth].
Qed.

(** [AddressBook.delete] of a missing name raises [KeyError(name)] and leaves the
    store alone; of a present name it removes that key and no other. *)
Theorem delete_spec s n :
  NoDup (map fst s) ->
  (dict_get n s = None -> delete n s = (Err (KeyError n), s)) /\
  (forall r, dict_get n s = Some r ->
     fst (delete n s) = Ok tt /\ dict_get n (snd (delete n s)) = None /\
     forall k, k <> n -> dict_get k (snd (delete n s)) = dict_get k s).
Proof.
  intros Hnd. unfold delete. split.
  - intros Hg. apply dict_del_get in Hg. now rewrite Hg.
  - intros r Hg. destruct (dict_del n s) as [s'|] eqn:Hd.
    + simpl. split; [reflexivity|]. exact (dict_del_get_after n s s' Hnd Hd).
    + apply dict_del_get in Hd. congruence.
Qed.

Lemma validate_phone_nonempty p : validate_phone p = Ok tt -> truthy (Some p) = Some p.
Proof. destruct p; [discriminate | reflexivity]. Qed.

(** [add_contact] with a valid name and a valid phone reports added or updated
    by whether the name was present, and [show_phone] then lists the old phones
    followed by the new one, joined by ["; "]. *)
Theorem show_phone_after_add_contact s n p :
  str_isalpha n = true -> validate_phone p = Ok tt ->
  fst (add_contact n (Some p) s)
  = Ok (match dict_get n s with
        | Some _ => pystr_of "Contact updated."
        | None => pystr_of "Contact added."
        end) /\
  show_phone n (snd (add_contact n (Some p) s))
  = (Ok (join (pystr_of "; ")
           (match dict_get n s with Some r => phones r | None => [] end ++ [p])),
     snd (add_contact n (Some p) s)).
Proof.
  intros Ha Hv.
  unfold add_contact, show_phone, bind, find_rec, lift, ret, raise, add_record, store_record.
  rewrite (validate_phone_nonempty p Hv).
  unfold add_phone. rewrite Hv. simpl.
  destruct (dict_get n s) as [r|] eqn:Hg; simpl.
  - rewrite dict_get_set_same. split; reflexivity.
  - unfold Record_new, validate_name. rewrite Ha. simpl.
    rewrite dict_get_set_same. split; reflexivity.
Qed.

Lemma dict_set_absent (k : pystr) v (s : book) :
  dict_get k s = None -> dict_set k v s = s ++ [(k, v)].
Proof.
  induction s as [|[k' v'] s IH]; simpl; [reflexivity|].
  destruct (pystr_eqb k k'); [discriminate|]. intros Hg. now rewrite IH.
Qed.

(** [add_contact] with no phone (or an empty one) leaves an existing contact
    untouched and reports it updated; for a new valid name it appends a record
    with no phones. *)
Theorem add_contact_without_phone s n phone :
  truthy phone = None ->
  (forall r, dict_get n s = Some r -> add_contact n phone s = (Ok (pystr_of "Contact updated."), s)) /\
  (dict_get n s = None -> str_isalpha n = true ->
   add_contact n phone s = (Ok (pystr_of "Contact added."), s ++ [(n, mkrecord n [] None)])).
Proof.
  intros Ht. unfold add_contact, bind, find_rec, lift, ret, add_record.
  rewrite Ht. split.
  - intros r Hg. now rewrite Hg.
  - intros Hg Ha. rewrite Hg. unfold Record_new, validate_name. rewrite Ha. simpl.
    now rewrite dict_set_absent.
Qed.

Lemma join_cons sep x xs : exists rest, join sep (x :: xs) = x ++ rest.
Proof. destruct xs; simpl; [exists []; now rewrite app_nil_r | eexists; reflexivity]. Qed.

(** [show_all] never changes the store and answers "No contacts available."
    exactly when the store is empty. *)
Theorem show_all_spec s :
  snd (show_all s) = s /\
  (fst (show_all s) = Ok (pystr_of "No contacts available.") <-> s = []).
Proof.
  destruct s as [|kv s]; [split; [reflexivity | simpl; tauto]|].
  split; [reflexivity|]. split; [|discriminate]. intros Heq.
  destruct (join_cons (pystr_of "
") (record_str (snd kv)) (map (fun kv => record_str (snd kv)) s)) as [rest Hj].
  change (fst (show_all (kv :: s)))
    with (Ok (join (pystr_of "
") (record_str (snd kv) :: map (fun kv => record_str (snd kv)) s))) in Heq.
  rewrite Hj in Heq. unfold record_str in Heq. injection Heq. simpl. discriminate.
Qed.

End Methods.

Lemma days_before_year_succ y :
  _days_before_year (y + 1) = _days_before_year y + 365 + (if _is_leap y then 1 else 0).
Proof.
  unfold _days_before_year, _is_leap. replace (y + 1 - 1) with y by ring.
  destruct (Z.eqb_spec (y mod 4) 0); destruct (Z.eqb_spec (y mod 100) 0);
    destruct (Z.eqb_spec (y mod 400) 0); simpl; Z.div_mod_to_equations; lia.
Qed.

Lemma days_before_year_mono y1 y2 :
  y1 < y2 -> _days_before_year y1 + 365 + (if _is_leap y1 then 1 else 0)
             <= _days_before_year y2.
Proof.
  intros Hlt. rewrite <- days_before_year_succ.
  assert (Hn : 0 <= y2 - (y1 + 1)) by lia.
  replace y2 with ((y1 + 1) + (y2 - (y1 + 1))) by ring.
  generalize dependent (y2 - (y1 + 1)). intros z Hz. clear Hlt.
  pattern z. apply natlike_ind; [rewrite Z.add_0_r; lia | | exact Hz].
  intros x Hx IH. cbv beta in *. replace (y1 + 1 + Z.succ x) with ((y1 + 1 + x) + 1) by ring.
  rewrite (days_before_year_succ (y1 + 1 + x)). destruct (_is_leap _); lia.
Qed.

Lemma month_cases m : 1 <= m <= 12 ->
  m = 1 \/ m = 2 \/ m = 3 \/ m = 4 \/ m = 5 \/ m = 6 \/ m = 7 \/ m = 8 \/ m = 9 \/
  m = 10 \/ m = 11 \/ m = 12.
Proof. lia. Qed.

Lemma days_in_year_bound y m :
  1 <= m <= 12 ->
  _days_before_month y m + _days_in_month y m <= 365 + (if _is_leap y then 1 else 0).
Proof.
  intros Hm. unfold _days_before_month, _days_in_month.
  destruct (_is_leap y); destruct (month_cases m Hm) as [->|[->|[->|[->|[->|[->|[->|[->|[->|[->|[->| ->]]]]]]]]]]];
    unfold tbl; simpl; lia.
Qed.

Lemma days_before_month_lt y m1 m2 :
  1 <= m1 -> m1 < m2 -> m2 <= 12 ->
  _days_before_month y m1 + _days_in_month y m1 <= _days_before_month y m2.
Proof.
  intros H1 H12 H2. unfold _days_before_month, _days_in_month.
  destruct (_is_leap y);
  destruct (month_cases m1 ltac:(lia)) as [->|[->|[->|[->|[->|[->|[->|[->|[->|[->|[->| ->]]]]]]]]]]];
  destruct (month_cases m2 ltac:(lia)) as [->|[->|[->|[->|[->|[->|[->|[->|[->|[->|[->| ->]]]]]]]]]]];
    unfold tbl; simpl; lia.
Qed.

Lemma days_before_month_nonneg y m : 1 <= m <= 12 -> 0 <= _days_before_month y m.
Proof.
  intros Hm. unfold _days_before_month.
  destruct (_is_leap y); destruct (month_cases m Hm) as [->|[->|[->|[->|[->|[->|[->|[->|[->|[->|[->| ->]]]]]]]]]]];
    unfold tbl; simpl; lia.
Qed.

(** [toordinal] is increasing for the tuple order of valid dates. *)
Lemma toordinal_lt a b :
  valid_date a = true -> valid_date b = true -> date_lt a b = true ->
  toordinal a < toordinal b.
Proof.
  destruct a as [y1 m1 d1], b as [y2 m2 d2].
  unfold valid_date, valid_ymd, date_lt, toordinal, _ymd2ord, MINYEAR, MAXYEAR.
  cbn [year month day].
  intros Ha Hb Hlt.
  repeat match goal with H : _ && _ = true |- _ => apply andb_prop in H as [? ?] end.
  rewrite ?Z.leb_le in *.
  pose proof (days_before_month_nonneg y2 m2 ltac:(lia)).
  apply orb_prop in Hlt as [Hy|Hy].
  - apply Z.ltb_lt in Hy.
    pose proof (days_before_year_mono y1 y2 Hy).
    pose proof (days_in_year_bound y1 m1 ltac:(lia)). lia.
  - apply andb_prop in Hy as [Hy Hm]. apply Z.eqb_eq in Hy as ->.
    apply orb_prop in Hm as [Hm|Hm].
    + apply Z.ltb_lt in Hm.
      pose proof (days_before_month_lt y2 m1 m2 ltac:(lia) Hm ltac:(lia)). lia.
    + apply andb_prop in Hm as [Hm Hd]. apply Z.eqb_eq in Hm as ->.
      apply Z.ltb_lt in Hd. lia.
Qed.

Lemma date_lt_false a b :
  date_lt a b = false -> a = b \/ date_lt b a = true.
Proof.
  destruct a as [y1 m1 d1], b as [y2 m2 d2]. unfold date_lt. cbn [year month day].
  intros H.
  destruct (Z.lt_trichotomy y1 y2) as [Hy|[<-|Hy]].
  - apply Z.ltb_lt in Hy. rewrite Hy in H. discriminate.
  - destruct (Z.lt_trichotomy m1 m2) as [Hm|[<-|Hm]].
    + apply Z.ltb_lt in Hm. rewrite !Z.ltb_irrefl, !Z.eqb_refl, Hm in H. discriminate.
    + destruct (Z.lt_trichotomy d1 d2) as [Hd|[<-|Hd]].
      * apply Z.ltb_lt in Hd. rewrite !Z.ltb_irrefl, !Z.eqb_refl, Hd in H. simpl in H. discriminate.
      * now left.
      * right. apply Z.ltb_lt in Hd. rewrite !Z.ltb_irrefl, !Z.eqb_refl, Hd. reflexivity.
    + right. apply Z.ltb_lt in Hm. rewrite !Z.ltb_irrefl, !Z.eqb_refl, Hm. reflexivity.
  - right. apply Z.ltb_lt in Hy. rewrite Hy. reflexivity.
Qed.

Section UpcomingSpecs.
Context `{UnicodeDB}.

(** The occurrence [get_upcoming_birthdays] computes for a birthday is never
    before [today]. *)
Theorem this_year_birthday_not_past today b t :
  valid_date today = true -> this_year_birthday today b = Ok t ->
  date_lt t today = false /\ 0 <= date_sub_days t today.
Proof.
  intros Hv Ht. pose proof (this_year_birthday_valid today b t Ht) as Hvt.
  assert (Hnlt : date_lt t today = false).
  { unfold this_year_birthday, date_replace_year in Ht.
    destruct (mk_date (year today) (month b) (day b)) as [t0|] eqn:E; simpl in Ht;
      [|discriminate].
    apply mk_date_ok in E as [-> _].
    destruct (date_lt (mkdate (year today) (month b) (day b)) today) eqn:Hlt.
    - apply mk_date_ok in Ht as [-> _]. unfold date_lt. cbn [year month day].
      rewrite (proj2 (Z.ltb_ge _ _)) by lia.
      rewrite (proj2 (Z.eqb_neq _ _)) by lia. reflexivity.
    - now injection Ht as <-. }
  split; [exact Hnlt|].
  unfold date_sub_days.
  destruct (date_lt_false t today Hnlt) as [->|Hlt]; [lia|].
  pose proof (toordinal_lt today t Hv Hvt Hlt). lia.
Qed.

Lemma upcoming_loop_err today vs e :
  upcoming_loop today vs = Err e ->
  exists r, In r vs /\ upcoming_entry today r = Err e.
Proof.
  induction vs as [|r vs IH]; simpl; [discriminate|].
  destruct (upcoming_entry today r) as [o|e'] eqn:E; simpl.
  - destruct (upcoming_loop today vs) as [l|e'] eqn:E'; simpl; [discriminate|].
    intros [= ->]. destruct (IH eq_refl) as [r' [Hin Hr']]. exists r'. tauto.
  - intros [= ->]. exists r. tauto.
Qed.

Lemma upcoming_loop_none today vs :
  (forall r, In r vs -> birthday r = None) -> upcoming_loop today vs = Ok [].
Proof.
  induction vs as [|r vs IH]; simpl; intros Hb; [reflexivity|].
  unfold upcoming_entry. rewrite (Hb r (or_introl eq_refl)). simpl.
  rewrite IH by auto. reflexivity.
Qed.

(** [get_upcoming_birthdays] leaves the store unchanged, returns no entry when no
    record has a birthday, and raises only on a record that has one. *)
Theorem upcoming_birthdays_store today s :
  snd (get_upcoming_birthdays today s) = s /\
  ((forall kv, In kv s -> birthday (snd kv) = None) ->
   fst (get_upcoming_birthdays today s) = Ok []) /\
  (forall e, fst (get_upcoming_birthdays today s) = Err e ->
   exists kv, In kv s /\ birthday (snd kv) <> None /\ upcoming_entry today (snd kv) = Err e).
Proof.
  simpl. split; [reflexivity|]. split.
  - intros Hb. apply upcoming_loop_none. intros r Hr.
    apply in_map_iff in Hr as [kv [<- Hkv]]. now apply Hb.
  - intros e He. destruct (upcoming_loop_err today _ e He) as [r [Hr Hre]].
    apply in_map_iff in Hr as [kv [<- Hkv]]. exists kv. split; [exact Hkv|].
    split; [|exact Hre]. intros Hb. unfold upcoming_entry in Hre. rewrite Hb in Hre.
    discriminate.
Qed.

(** Every entry of [get_upcoming_birthdays] formats one valid date [c] twice
    (as DD.MM.YYYY and YYYY.MM.DD), and [c] lies between 0 and 9 days after
    [today]. *)
Theorem upcoming_entry_dates today s l e :
  fst (get_upcoming_birthdays today s) = Ok l -> In e l ->
  exists c, e_birthday e = strftime_dmy c /\ e_congratulation_date e = strftime_ymd c /\
    valid_date c = true /\ 0 <= date_sub_days c today <= 9.
Proof.
  simpl. intros Hl He.
  apply (upcoming_loop_In today _ l e Hl) in He as [r [_ Hr]].
  unfold upcoming_entry in Hr.
  destruct (birthday r) as [b|]; [|discriminate].
  destruct (this_year_birthday today b) as [t|] eqn:Ht; simpl in Hr; [|discriminate].
  destruct ((0 <=? date_sub_days t today) && (date_sub_days t today <=? 7)) eqn:Ew;
    [|discriminate].
  destruct (congratulation_shift t) as [c|] eqn:Hc; simpl in Hr; [|discriminate].
  injection Hr as <-.
  apply andb_prop in Ew as [E1 E2]. rewrite Z.leb_le in E1, E2.
  destruct (congratulation_shift_spec t c (this_year_birthday_valid today b t Ht) Hc)
    as [Ho [_ [Hv _]]].
  exists c. split; [reflexivity|]. split; [reflexivity|]. split; [exact Hv|].
  unfold date_sub_days in *. rewrite Ho.
  destruct (weekday t =? 5); [|destruct (weekday t =? 6)]; lia.
Qed.

End UpcomingSpecs.

Section Parse.
Context `{UnicodeText}.


Hypothesis Hdec : ascii_decimal.

Lemma dec_digit c : 48 <= c <= 57 -> cp_decimal c = Some (c - 48).
Proof.
  intros Hc. rewrite Hdec by lia.
  replace (in_range 48 57 c) with true; [reflexivity|].
  symmetry. unfold in_range. apply andb_true_iff. rewrite !Z.leb_le. lia.
Qed.

Lemma digit_range n : 48 <= digit n <= 57.
Proof. unfold digit. pose proof (Z.mod_pos_bound n 10). lia. Qed.

Lemma day_cases d : 1 <= d <= 31 -> exists k, (k < 31)%nat /\ d = 1 + Z.of_nat k.
Proof. intros Hd. exists (Z.to_nat (d - 1)). lia. Qed.

Lemma re_d_pad2 d rest :
  1 <= d <= 31 -> exists more, re_d (pad2 d ++ rest) = (d, rest) :: more.
Proof.
  intros Hd. destruct (day_cases d Hd) as [k [Hk ->]].
  do 31 (destruct k as [|k]; [cbv [pad2 digit]; simpl;
          repeat (rewrite dec_digit by lia; simpl); eexists; reflexivity|]).
  lia.
Qed.

Lemma re_m_pad2 m rest :
  1 <= m <= 12 -> exists more, re_m (pad2 m ++ rest) = (m, rest) :: more.
Proof.
  intros Hm. destruct (day_cases m ltac:(lia)) as [k [_ ->]].
  assert (Hk : (k < 12)%nat) by lia.
  do 12 (destruct k as [|k]; [cbv [pad2 digit]; simpl; eexists; reflexivity|]).
  lia.
Qed.

Lemma re_Y_pad4 y rest :
  0 <= y < 10000 -> re_Y (pad4 y ++ rest) = [(y, rest)].
Proof.
  intros Hy. unfold pad4. simpl.
  rewrite !dec_digit by apply digit_range.
  f_equal. f_equal. unfold digit. Z.div_mod_to_equations. lia.
Qed.

Lemma strftime_dmy_split x :
  strftime_dmy x = pad2 (day x) ++ 46 :: pad2 (month x) ++ 46 :: pad4 (year x).
Proof. reflexivity. Qed.

Lemma re_dmY_strftime x rest :
  valid_date x = true ->
  exists more, re_dmY (strftime_dmy x ++ rest) = (day x, month x, year x, rest) :: more.
Proof.
  unfold valid_date, valid_ymd, MINYEAR, MAXYEAR. intros Hv.
  repeat match goal with H : _ && _ = true |- _ => apply andb_prop in H as [? ?] end.
  rewrite ?Z.leb_le in *.
  assert (Hdim : _days_in_month (year x) (month x) <= 31).
  { unfold _days_in_month. destruct (_ && _); [lia|].
    destruct (day_cases (month x) ltac:(lia)) as [k [_ Hk]]. rewrite Hk.
    assert (Hk12 : (k < 12)%nat) by lia.
    do 12 (destruct k as [|k]; [unfold tbl; simpl; lia|]). lia. }
  replace (strftime_dmy x ++ rest)
    with (pad2 (day x) ++ 46 :: pad2 (month x) ++ 46 :: pad4 (year x) ++ rest)
    by reflexivity.
  destruct (re_d_pad2 (day x) (46 :: pad2 (month x) ++ 46 :: pad4 (year x) ++ rest)
              ltac:(lia)) as [more1 Hd].
  destruct (re_m_pad2 (month x) (46 :: pad4 (year x) ++ rest) ltac:(lia)) as [more2 Hm].
  assert (Hdot : forall r, re_dot (46 :: r) = [r]) by reflexivity.
  unfold re_dmY. rewrite Hd. cbn [flat_map fst snd]. rewrite Hdot. cbn [flat_map].
  rewrite Hm. cbn [flat_map fst snd]. rewrite Hdot. cbn [flat_map].
  rewrite re_Y_pad4 by lia. cbn [map fst snd app]. eexists. reflexivity.
Qed.

Lemma strptime_strftime x :
  valid_date x = true -> strptime_dmy (strftime_dmy x) = Ok x.
Proof.
  intros Hv. destruct (re_dmY_strftime x [] Hv) as [more Hm].
  rewrite app_nil_r in Hm. unfold strptime_dmy. rewrite Hm.
  unfold mk_date. destruct x as [y m d]. unfold valid_date in Hv. simpl in *. now rewrite Hv.
Qed.

Lemma strptime_trailing x c more :
  valid_date x = true -> strptime_dmy (strftime_dmy x ++ c :: more) = Err ValueError.
Proof.
  intros Hv. destruct (re_dmY_strftime x (c :: more) Hv) as [more' Hm].
  unfold strptime_dmy. now rewrite Hm.
Qed.

End Parse.

Section Split.
Context `{UnicodeText}.


(** A token: non-empty, without whitespace. *)

Lemma lstrip_cases s : lstrip s = [] \/ exists c r, lstrip s = c :: r /\ cp_isspace c = false.
Proof.
  induction s as [|c s IH]; simpl; [now left|].
  destruct (cp_isspace c) eqn:E; [exact IH | right; now exists c, s].
Qed.

Lemma lstrip_nil s : lstrip s = [] <-> Forall is_space s.
Proof.
  induction s as [|c s IH]; simpl; [split; auto|].
  destruct (cp_isspace c) eqn:E.
  - rewrite IH. split; [intros; now constructor | now inversion 1].
  - split; [discriminate | inversion 1; unfold is_space in *; congruence].
Qed.

Lemma py_strip_nil s : py_strip s = [] <-> Forall is_space s.
Proof.
  unfold py_strip. rewrite <- lstrip_nil. split.
  - intros Hr. destruct (lstrip_cases s) as [Hn|[c [r [Hcr Hc]]]]; [exact Hn|].
    exfalso. apply (f_equal (@rev Z)) in Hr. rewrite rev_involutive in Hr. simpl in Hr.
    apply lstrip_nil in Hr. rewrite Hcr in Hr. simpl in Hr.
    apply Forall_app in Hr as [_ Hr]. inversion Hr as [|? ? Hsp]. unfold is_space in Hsp.
    congruence.
  - intros ->. reflexivity.
Qed.

Lemma split_go_nil s cur : split_go s cur = [] -> cur = [] /\ Forall is_space s.
Proof.
  revert cur; induction s as [|c s IH]; intros cur; simpl.
  - destruct cur; [split; auto | discriminate].
  - destruct (cp_isspace c) eqn:E.
    + destruct cur; [|discriminate]. intros Hs. destruct (IH [] Hs) as [_ Hf].
      split; [reflexivity | now constructor].
    + intros Hs. destruct (IH (c :: cur) Hs) as [Hc _]. discriminate.
Qed.

Lemma split_go_tokens s cur :
  Forall (fun c => cp_isspace c = false) cur -> Forall token (split_go s cur).
Proof.
  revert cur; induction s as [|c s IH]; intros cur Hcur; simpl.
  - destruct cur as [|c cur]; [constructor|]. constructor; [|constructor].
    split; [intros Hr; apply (f_equal (@List.length Z)) in Hr; rewrite length_rev in Hr;
            discriminate | now apply Forall_rev].
  - destruct (cp_isspace c) eqn:E.
    + destruct cur as [|c' cur]; [now apply IH|]. constructor; [|now apply IH].
      split; [intros Hr; apply (f_equal (@List.length Z)) in Hr; rewrite length_rev in Hr;
              discriminate | now apply Forall_rev].
    + apply IH. now constructor.
Qed.

Lemma lstrip_token t : Forall (fun c => cp_isspace c = false) t -> lstrip t = t.
Proof. destruct t as [|c t]; [reflexivity|]. inversion 1 as [|? ? Hc]; subst. simpl. now rewrite Hc. Qed.

Lemma py_strip_token t : Forall (fun c => cp_isspace c = false) t -> py_strip t = t.
Proof.
  intros Ht. unfold py_strip. rewrite (lstrip_token t Ht).
  rewrite (lstrip_token (rev t)) by now apply Forall_rev. apply rev_involutive.
Qed.

Lemma parse_input_cases s :
  (Forall is_space s /\ parse_input s = Ok ([], [])) \/
  (exists t ts, py_split s = t :: ts /\ parse_input s = Ok (str_lower t, ts) /\
                Forall token (t :: ts)).
Proof.
  unfold parse_input.
  assert (Htok : Forall token (py_split s)) by (apply split_go_tokens; constructor).
  destruct (py_strip s) as [|c r] eqn:Hs.
  - left. split; [now apply py_strip_nil | reflexivity].
  - right. destruct (py_split s) as [|t ts] eqn:Hp.
    + exfalso. apply split_go_nil in Hp as [_ Hf]. apply py_strip_nil in Hf. congruence.
    + exists t, ts. split; [reflexivity|].
      inversion Htok as [|? ? [_ Ht] Hts]; subst.
      rewrite py_strip_token by exact Ht. split; [|exact Htok].
      f_equal. f_equal. clear -Hts. induction Hts as [|t' ts' [_ Ht'] _ IH]; [reflexivity|].
      cbn [map]. rewrite (py_strip_token t' Ht'). now rewrite IH.
Qed.

Lemma split_go_app t s cur :
  Forall (fun c => cp_isspace c = false) t -> split_go (t ++ s) cur = split_go s (rev t ++ cur).
Proof.
  revert cur; induction t as [|c t IH]; intros cur Ht; [reflexivity|].
  inversion Ht as [|? ? Hc Ht']; subst. simpl. rewrite Hc, IH by exact Ht'.
  now rewrite <- app_assoc.
Qed.

Lemma split_join ts :
  cp_isspace 32 = true -> Forall token ts -> py_split (join [32] ts) = ts.
Proof.
  intros Hsp. unfold py_split. induction ts as [|t ts IH]; intros Hts; [reflexivity|].
  inversion Hts as [|? ? [Hne Ht] Hts']; subst.
  destruct ts as [|t' ts].
  - simpl. rewrite <- (app_nil_r t) at 1. rewrite split_go_app by exact Ht.
    rewrite app_nil_r. simpl. destruct (rev t) eqn:Hr.
    + apply (f_equal (@rev Z)) in Hr. rewrite rev_involutive in Hr. simpl in Hr. congruence.
    + rewrite <- Hr, rev_involutive. reflexivity.
  - change (join [32] (t :: t' :: ts)) with (t ++ [32] ++ join [32] (t' :: ts)).
    rewrite split_go_app by exact Ht. rewrite app_nil_r. simpl. rewrite Hsp.
    destruct (rev t) eqn:Hr.
    + apply (f_equal (@rev Z)) in Hr. rewrite rev_involutive in Hr. simpl in Hr. congruence.
    + rewrite <- Hr, rev_involutive. f_equal. exact (IH Hts').
Qed.

End Split.

Section Handlers.
Context `{UnicodeDB} `{UnicodeText}.

Lemma from_book_snd (m : M pystr) b : snd (from_book m b) = snd (m b).
Proof. unfold from_book. destruct (m b). reflexivity. Qed.

(** With the wrong number of arguments every handler fails with its
    [IndexError] message and leaves the book alone; only [handle_add_contact]
    prints the arguments first. *)
Theorem handlers_wrong_arity args b :
  (List.length args <> 2%nat ->
   handle_add_contact args b
   = ([PrintArgs args],
      inr (IndexError (pystr_of "Please provide contact name and phone number.")), b)) /\
  (List.length args <> 3%nat ->
   handle_change_contact args b
   = ([], inr (IndexError (pystr_of
        "Please provide contact name, old phone number and new phone number.")), b)) /\
  (List.length args <> 1%nat ->
   handle_show_phone args b
   = ([], inr (IndexError (pystr_of "Please provide contact name.")), b)) /\
  (List.length args <> 2%nat ->
   handle_add_birthday args b
   = ([], inr (IndexError (pystr_of "Please provide contact name and birthday date.")), b)) /\
  (List.length args <> 1%nat ->
   handle_show_birthday args b
   = ([], inr (IndexError (pystr_of "Please provide contact name.")), b)).
Proof.
  destruct args as [|a1 [|a2 [|a3 [|a4 l]]]]; simpl;
    repeat split; intros Hl; (reflexivity || lia).
Qed.

(** For a name not in the book, change, phone, show-birthday and add-birthday
    print ['Contact not found.'] (with the quotes of [str(KeyError)]) and leave
    the book alone. *)
Theorem handlers_unknown_contact b n old_phone new_phone date :
  dict_get n b = None ->
  run_handler (handle_change_contact [n; old_phone; new_phone] b)
  = ([Print (Shown (pystr_of "'Contact not found.'"))], b) /\
  run_handler (handle_show_phone [n] b)
  = ([Print (Shown (pystr_of "'Contact not found.'"))], b) /\
  run_handler (handle_show_birthday [n] b)
  = ([Print (Shown (pystr_of "'Contact not found.'"))], b) /\
  run_handler (handle_add_birthday [n; date] b)
  = ([PrintArgs [n; date]; Print (Shown (pystr_of "'Contact not found.'"))], b).
Proof.
  intros Hg.
  unfold handle_change_contact, handle_show_phone, handle_show_birthday, handle_add_birthday,
    from_book, change_contact, show_phone, bind, find_rec, raise.
  rewrite Hg. repeat split; reflexivity.
Qed.

(** The [add] command with a new valid name and a non-empty invalid phone prints
    the phone error but keeps the new contact, with no phones. *)
Theorem shell_add_invalid_phone today b n p :
  dict_get n b = None -> str_isalpha n = true -> p <> [] -> validate_phone p <> Ok tt ->
  dispatch today (pystr_of "add") [n; p] b
  = ([PrintArgs [n; p]; Print (Shown (pystr_of "Phone number must be 10 digits"))],
     dict_set n (mkrecord n [] None) b).
Proof.
  intros Hg Ha Hp Hv.
  assert (Hv' : validate_phone p
                = Err (ValidationException (pystr_of "Phone number must be 10 digits"))).
  { unfold validate_phone in *. destruct (_ || _); [reflexivity | congruence]. }
  unfold dispatch. simpl.
  unfold handle_add_contact, from_book, add_contact, bind, find_rec, lift, ret,
    add_record, store_record.
  rewrite Hg. unfold Record_new, validate_name. rewrite Ha. simpl.
  destruct p as [|c p]; [congruence|]. simpl. unfold add_phone. rewrite Hv'. reflexivity.
Qed.

Lemma add_birthday_name r v r' : add_birthday r v = Ok r' -> name r' = name r.
Proof. unfold add_birthday. destruct (Birthday_new v); simpl; [|discriminate]. now intros [= <-]. Qed.

Lemma dispatch_inv today cmd args b :
  store_inv b -> store_inv (snd (dispatch today cmd args b)).
Proof.
  intros Hinv. unfold dispatch.
  repeat match goal with |- context [if ?c then _ else _] => destruct c end; simpl;
    try exact Hinv.
  - unfold handle_add_contact.
    destruct args as [|n [|p [|a l]]]; simpl; try exact Hinv.
    destruct (from_book (add_contact n (Some p)) b) as [r b'] eqn:E. simpl.
    change b' with (snd (r, b')). rewrite <- E, from_book_snd. now apply add_contact_inv.
  - unfold handle_change_contact.
    destruct args as [|n [|o [|p [|a l]]]]; simpl; try exact Hinv.
    destruct (from_book (change_contact n o p) b) as [r b'] eqn:E. simpl.
    change b' with (snd (r, b')). rewrite <- E, from_book_snd. now apply change_contact_inv.
  - unfold handle_show_phone.
    destruct args as [|n [|a l]]; simpl; try exact Hinv.
    destruct (from_book (show_phone n) b) as [r b'] eqn:E. simpl.
    change b' with (snd (r, b')). rewrite <- E, from_book_snd.
    unfold show_phone, bind, find_rec, ret, raise. destruct (dict_get n b); exact Hinv.
  - unfold handle_show_all.
    destruct (from_book show_all b) as [r b'] eqn:E. simpl.
    change b' with (snd (r, b')). rewrite <- E, from_book_snd.
    unfold show_all. destruct b; exact Hinv.
  - unfold handle_add_birthday.
    destruct args as [|n [|v [|a l]]]; simpl; try exact Hinv.
    destruct (dict_get n b) as [r|] eqn:Hg; simpl; [|exact Hinv].
    destruct (add_birthday r v) as [r'|e] eqn:Hb; simpl; [|exact Hinv].
    destruct (store_inv_get b n r Hinv Hg) as [Hn Ha].
    apply store_inv_set; [exact Hinv | rewrite (add_birthday_name r v r' Hb); exact Hn | exact Ha].
  - unfold handle_show_birthday.
    destruct args as [|n [|a l]]; simpl; try exact Hinv.
    destruct (dict_get n b); exact Hinv.
  - unfold handle_birthdays. simpl.
    destruct (upcoming_loop (today) (map snd b)) as [[|e l]|e]; exact Hinv.
Qed.

Lemma main_loop_inv today i inputs b :
  store_inv b -> store_inv (snd (fst (main_loop today i inputs b))).
Proof.
  revert i b; induction inputs as [|line rest IH]; intros i b Hinv; simpl; [exact Hinv|].
  destruct (parse_input line) as [[command args]|e]; simpl; [|exact Hinv].
  destruct command as [|c command].
  - destruct (main_loop today (S i) rest b) as [[evs b'] e] eqn:E. simpl.
    change b' with (snd (fst (evs, b', e))). rewrite <- E. now apply IH.
  - destruct (_ || _); simpl; [exact Hinv|].
    destruct (dispatch (today i) (c :: command) args b) as [evs1 b1] eqn:Ed.
    destruct (main_loop today (S i) rest b1) as [[evs b'] e] eqn:E. simpl.
    change b' with (snd (fst (evs, b', e))). rewrite <- E. apply IH.
    change b1 with (snd (evs1, b1)). rewrite <- Ed. now apply dispatch_inv.
Qed.

(** Whatever the user types, the book [main] ends with satisfies the store
    invariant: each key is its record's name, made of letters, and no key twice. *)
Theorem main_keeps_store_inv today inputs : store_inv (snd (fst (main today inputs))).
Proof.
  unfold main. pose proof (main_loop_inv today 0 inputs [] ltac:(split; constructor)) as Hi.
  destruct (main_loop today 0 inputs []) as [[evs b] e]. exact Hi.
Qed.

Lemma parse_input_ok s : exists cmd args, parse_input s = Ok (cmd, args).
Proof.
  destruct (parse_input_cases s) as [[_ Hp]|[t [ts [_ [Hp _]]]]]; eexists _, _; exact Hp.
Qed.

(** [main] stops only at [close] or [exit], or when the input runs out (where
    [input()] raises [EOFError]): [parse_input] does not raise and every
    handler's error is printed by [input_error]. *)
Theorem main_ends_at_exit_or_eof today inputs :
  snd (main today inputs) = Exited \/ snd (main today inputs) = EndOfInput.
Proof.
  unfold main.
  assert (Hl : forall i b, snd (main_loop today i inputs b) = Exited \/
                           snd (main_loop today i inputs b) = EndOfInput).
  { induction inputs as [|line rest IH]; intros i b; simpl; [now right|].
    destruct (parse_input_ok line) as [cmd [args ->]].
    destruct cmd as [|c cmd].
    - destruct (main_loop today (S i) rest b) as [[evs b'] e'] eqn:E. simpl.
      change e' with (snd (evs, b', e')). rewrite <- E. apply IH.
    - destruct (_ || _); [now left|].
      destruct (dispatch (today i) (c :: cmd) args b) as [evs1 b1].
      destruct (main_loop today (S i) rest b1) as [[evs b'] e'] eqn:E. simpl.
      change e' with (snd (evs, b', e')). rewrite <- E. apply IH. }
  specialize (Hl 0%nat []).
  destruct (main_loop today 0 inputs []) as [[evs b] e']. exact Hl.
Qed.

(** Once [close] or [exit] ends the loop, the lines after it are never read. *)
Theorem main_loop_stops_at_exit today i inputs more b :
  snd (main_loop today i inputs b) = Exited ->
  main_loop today i (inputs ++ more) b = main_loop today i inputs b.
Proof.
  revert i b; induction inputs as [|line rest IH]; intros i b; simpl; [discriminate|].
  destruct (parse_input line) as [[cmd args]|e]; [|discriminate].
  destruct cmd as [|c cmd].
  - destruct (main_loop today (S i) rest b) as [[evs b'] e] eqn:E. simpl. intros ->.
    rewrite IH; [now rewrite E | now rewrite E].
  - destruct (_ || _); [reflexivity|].
    destruct (dispatch (today i) (c :: cmd) args b) as [evs1 b1].
    destruct (main_loop today (S i) rest b1) as [[evs b'] e] eqn:E. simpl. intros ->.
    rewrite IH; [now rewrite E | now rewrite E].
Qed.

(** [add-birthday] with a date written as [strftime("%d.%m.%Y")] stores that
    date, and [show-birthday] then prints the same string. *)
Theorem birthday_commands_roundtrip b n r x :
  ascii_decimal -> valid_date x = true -> dict_get n b = Some r ->
  handle_add_birthday [n; strftime_dmy x] b
  = ([PrintArgs [n; strftime_dmy x]], inl (pystr_of "Birthday added"),
     dict_set n (mkrecord (name r) (phones r) (Some x)) b) /\
  handle_show_birthday [n] (dict_set n (mkrecord (name r) (phones r) (Some x)) b)
  = ([], inl (strftime_dmy x), dict_set n (mkrecord (name r) (phones r) (Some x)) b).
Proof.
  intros Hdec Hv Hg. unfold handle_add_birthday, handle_show_birthday.
  rewrite Hg. unfold add_birthday, Birthday_new.
  rewrite (strptime_strftime Hdec x Hv). simpl.
  rewrite dict_get_set_same. split; reflexivity.
Qed.

End Handlers.

Section MoreSpecs.
Context `{UnicodeDB} `{UnicodeText}.

Lemma remove_skip_incl phone ps : incl (remove_skip phone ps) ps.
Proof.
  induction ps as [| p |p q l IHl IHql] using remove_skip_ind; simpl.
  - apply incl_refl.
  - destruct (pystr_eqb p phone); [intros x []| apply incl_refl].
  - destruct (pystr_eqb p phone).
    + apply incl_cons; [right; now left|]. intros x Hx. right; right. now apply IHl.
    + apply incl_cons; [now left|]. intros x Hx. right. now apply IHql.
Qed.

(** [Record.remove_phone] keeps name and birthday, keeps every phone that differs
    from the one removed (in order), and adds none. *)
Theorem remove_phone_keeps_others r phone :
  name (remove_phone r phone) = name r /\ birthday (remove_phone r phone) = birthday r /\
  filter (fun p => negb (pystr_eqb p phone)) (phones (remove_phone r phone))
  = filter (fun p => negb (pystr_eqb p phone)) (phones r) /\
  incl (phones (remove_phone r phone)) (phones r).
Proof.
  split; [reflexivity|]. split; [reflexivity|]. rewrite remove_phone_phones. split.
  - apply remove_skip_filter.
  - apply remove_skip_incl.
Qed.

(** [Record.remove_phone] of a phone the record does not hold changes nothing. *)
Theorem remove_phone_absent r phone :
  ~ In phone (phones r) -> remove_phone r phone = r.
Proof.
  intros Hn. destruct r as [n ps b]. unfold remove_phone. simpl.
  rewrite remove_phone_loop_skip by lia. simpl. now rewrite remove_skip_absent.
Qed.

(** [Record.remove_phone] of a phone held once removes exactly that phone. *)
Theorem remove_phone_single r phone l1 l2 :
  phones r = l1 ++ phone :: l2 -> ~ In phone l1 -> ~ In phone l2 ->
  phones (remove_phone r phone) = l1 ++ l2.
Proof.
  intros Hp H1 H2. rewrite remove_phone_phones, Hp, remove_skip_app by exact H1.
  f_equal. simpl. rewrite pystr_eqb_refl.
  destruct l2 as [|q l2]; [reflexivity|]. f_equal. apply remove_skip_absent.
  intros Hin. apply H2. now right.
Qed.

(** When a phone is held twice in a row, [Record.remove_phone] leaves a copy: the
    loop removes from the list it iterates and skips the next element. *)
Theorem remove_phone_adjacent_copy r phone l1 l2 :
  phones r = l1 ++ phone :: phone :: l2 -> In phone (phones (remove_phone r phone)).
Proof. intros Hp. rewrite remove_phone_phones, Hp. apply remove_skip_pair. Qed.

(** [Birthday] parses back every date [strftime("%d.%m.%Y")] prints, and
    [add_birthday] followed by [show_birthday] returns the input string. *)
Theorem birthday_roundtrip r x :
  ascii_decimal -> valid_date x = true ->
  Birthday_new (strftime_dmy x) = Ok x /\
  add_birthday r (strftime_dmy x) = Ok (mkrecord (name r) (phones r) (Some x)) /\
  show_birthday (mkrecord (name r) (phones r) (Some x)) = strftime_dmy x.
Proof.
  intros Hdec Hv. unfold add_birthday, Birthday_new. rewrite (strptime_strftime Hdec x Hv).
  repeat split.
Qed.

(** [Birthday] either holds a valid date or raises the validation error
    "Invalid date format. Use DD.MM.YYYY": no other exception escapes. *)
Theorem birthday_outcome s :
  (exists x, Birthday_new s = Ok x /\ valid_date x = true) \/
  Birthday_new s = Err (ValidationException (pystr_of "Invalid date format. Use DD.MM.YYYY")).
Proof.
  unfold Birthday_new, strptime_dmy.
  destruct (re_dmY s) as [|[[[d m] y] rest] more]; [now right|].
  destruct rest; [|now right].
  destruct (mk_date y m d) as [x|e] eqn:E.
  - left. exists x. split; [reflexivity|]. now apply mk_date_ok in E.
  - right. unfold mk_date in E. destruct (valid_ymd y m d); [discriminate|].
    now injection E as <-.
Qed.

Lemma re_d_single (Hdec : ascii_decimal) d R :
  1 <= d <= 9 -> exists more, re_d (48 + d :: 46 :: R) = (d, 46 :: R) :: more.
Proof.
  intros Hd.
  assert (d = 1 \/ d = 2 \/ d = 3 \/ d = 4 \/ d = 5 \/ d = 6 \/ d = 7 \/ d = 8 \/ d = 9)
    as Hc by lia.
  destruct Hc as [->|[->|[->|[->|[->|[->|[->|[->| ->]]]]]]]]; simpl;
    try (rewrite Hdec by lia; simpl); eexists; reflexivity.
Qed.

Lemma re_m_single m R :
  1 <= m <= 9 -> exists more, re_m (48 + m :: 46 :: R) = (m, 46 :: R) :: more.
Proof.
  intros Hm.
  assert (m = 1 \/ m = 2 \/ m = 3 \/ m = 4 \/ m = 5 \/ m = 6 \/ m = 7 \/ m = 8 \/ m = 9)
    as Hc by lia.
  destruct Hc as [->|[->|[->|[->|[->|[->|[->|[->| ->]]]]]]]]; simpl; eexists; reflexivity.
Qed.

(** [Birthday] accepts a one-digit day and month without zero padding, as
    [strptime]'s [%d] and [%m] do. *)
Theorem birthday_unpadded y m d :
  ascii_decimal -> 1 <= d <= 9 -> 1 <= m <= 9 -> valid_ymd y m d = true ->
  Birthday_new ([48 + d; 46; 48 + m; 46] ++ pad4 y) = Ok (mkdate y m d).
Proof.
  intros Hdec Hd Hm Hv.
  assert (Hy : 0 <= y < 10000).
  { unfold valid_ymd, MINYEAR, MAXYEAR in Hv.
    repeat match goal with H : _ && _ = true |- _ => apply andb_prop in H as [? ?] end.
    rewrite ?Z.leb_le in *. lia. }
  destruct (re_d_single Hdec d (48 + m :: 46 :: pad4 y) Hd) as [more1 Hd1].
  destruct (re_m_single m (pad4 y) Hm) as [more2 Hm1].
  assert (Hdot : forall r, re_dot (46 :: r) = [r]) by reflexivity.
  unfold Birthday_new, strptime_dmy, re_dmY. cbn [app].
  rewrite Hd1. cbn [flat_map fst snd]. rewrite Hdot. cbn [flat_map].
  rewrite Hm1. cbn [flat_map fst snd]. rewrite Hdot. cbn [flat_map].
  rewrite <- (app_nil_r (pad4 y)), (re_Y_pad4 Hdec) by exact Hy. cbn [map fst snd app].
  unfold mk_date. now rewrite Hv.
Qed.

(** [Birthday] rejects a well-formed date followed by any extra character. *)
Theorem birthday_trailing x c more :
  ascii_decimal -> valid_date x = true ->
  Birthday_new (strftime_dmy x ++ c :: more)
  = Err (ValidationException (pystr_of "Invalid date format. Use DD.MM.YYYY")).
Proof.
  intros Hdec Hv. unfold Birthday_new. now rewrite (strptime_trailing Hdec x c more Hv).
Qed.

Lemma split_go_blank s : Forall is_space s -> split_go s [] = [].
Proof.
  induction s as [|c s IH]; intros Hs; [reflexivity|].
  inversion Hs as [|? ? Hc Hs']; subst. unfold is_space in Hc. simpl. rewrite Hc. now apply IH.
Qed.

(** [parse_input] never raises, and a blank line gives an empty command and no
    arguments. *)
Theorem parse_input_blank_never_raises s :
  (exists cmd args, parse_input s = Ok (cmd, args)) /\
  (forallb cp_isspace s = true -> parse_input s = Ok ([], [])).
Proof.
  destruct (parse_input_cases s) as [[_ Hp]|[t [ts [_ [Hp _]]]]];
    (split; [eexists _, _; exact Hp|]).
  - intros _. exact Hp.
  - intros Hb. unfold parse_input. rewrite (proj2 (py_strip_nil s)); [reflexivity|].
    apply Forall_forall. intros c Hc. exact (proj1 (forallb_forall _ _) Hb c Hc).
Qed.

(** The arguments [parse_input] returns are the words of [str.split] after the
    first, each non-empty and without white space. *)
Theorem parse_input_args s cmd args :
  parse_input s = Ok (cmd, args) -> args = tl (py_split s) /\ Forall token args.
Proof.
  destruct (parse_input_cases s) as [[Hs Hp]|[t [ts [Hsp [Hp Htok]]]]]; rewrite Hp;
    intros [= <- <-].
  - unfold py_split. rewrite split_go_blank by exact Hs. split; [reflexivity | constructor].
  - rewrite Hsp. split; [reflexivity|]. now inversion Htok.
Qed.

(** Words joined by single spaces are parsed back: the command lower-cased,
    the arguments unchanged. *)
Theorem parse_input_join t ts :
  cp_isspace 32 = true -> Forall token (t :: ts) ->
  parse_input (join [32] (t :: ts)) = Ok (str_lower t, ts).
Proof.
  intros Hsp Htok.
  destruct (parse_input_cases (join [32] (t :: ts)))
    as [[Hs _]|[t' [ts' [Hsp' [Hp _]]]]].
  - exfalso. inversion Htok as [|? ? [Hne Ht] _]; subst.
    destruct t as [|c t]; [congruence|].
    destruct (join_cons [32] (c :: t) ts) as [rest Hj]. rewrite Hj in Hs.
    inversion Hs as [|? ? Hc]; subst. inversion Ht as [|? ? Hc']; subst.
    unfold is_space in Hc. congruence.
  - rewrite split_join in Hsp' by assumption. injection Hsp' as <- <-. exact Hp.
Qed.

End MoreSpecs.

(** * Witnesses: the hypotheses of the properties above hold on concrete inputs *)

Lemma ascii_text_decimal : ascii_decimal.
Proof. intros c _. reflexivity. Qed.

Lemma add_phone_then_find_witness :
  add_phone (mkrecord anna [] None) phone1 = Ok (mkrecord anna [phone1] None) /\
  find_phone (mkrecord anna [phone1] None) phone1 = Some phone1.
Proof.
  assert (Ha : add_phone (mkrecord anna [] None) phone1 = Ok (mkrecord anna [phone1] None))
    by (vm_compute; reflexivity).
  split; [exact Ha|].
  exact (proj1 (proj2 (add_phone_then_find _ _ _ Ha))).
Defined.

Lemma delete_spec_witness :
  NoDup (map fst anna_book) /\
  fst (delete anna anna_book) = Ok tt /\
  dict_get anna (snd (delete anna anna_book)) = None /\
  delete zed anna_book = (Err (KeyError zed), anna_book).
Proof.
  assert (Hnd : NoDup (map fst anna_book)) by (repeat constructor; intros []).
  destruct (delete_spec anna_book anna Hnd) as [_ Ha].
  destruct (delete_spec anna_book zed Hnd) as [Hz _].
  destruct (Ha (mkrecord anna [phone1] None) ltac:(vm_compute; reflexivity)) as [H1 [H2 _]].
  split; [exact Hnd|]. split; [exact H1|]. split; [exact H2|].
  apply Hz. vm_compute. reflexivity.
Defined.

Lemma show_phone_after_add_contact_witness :
  str_isalpha anna = true /\ validate_phone phone2 = Ok tt /\
  show_phone anna (snd (add_contact anna (Some phone2) anna_book))
  = (Ok (join (pystr_of "; ") [phone1; phone2]),
     snd (add_contact anna (Some phone2) anna_book)).
Proof.
  assert (Hn : str_isalpha anna = true) by reflexivity.
  assert (Hp : validate_phone phone2 = Ok tt) by reflexivity.
  split; [exact Hn|]. split; [exact Hp|].
  exact (proj2 (show_phone_after_add_contact anna_book anna phone2 Hn Hp)).
Defined.

Lemma add_contact_without_phone_witness :
  add_contact anna (Some []) anna_book = (Ok (pystr_of "Contact updated."), anna_book) /\
  add_contact zed None anna_book
  = (Ok (pystr_of "Contact added."), anna_book ++ [(zed, mkrecord zed [] None)]).
Proof.
  split.
  - apply (proj1 (add_contact_without_phone anna_book anna (Some []) eq_refl)
             (mkrecord anna [phone1] None)).
    vm_compute. reflexivity.
  - apply (proj2 (add_contact_without_phone anna_book zed None eq_refl));
      vm_compute; reflexivity.
Defined.

Lemma this_year_birthday_not_past_witness :
  this_year_birthday june10 (mkdate 1990 6 15) = Ok (mkdate 2024 6 15) /\
  date_lt (mkdate 2024 6 15) june10 = false /\ 0 <= date_sub_days (mkdate 2024 6 15) june10.
Proof.
  assert (Ht : this_year_birthday june10 (mkdate 1990 6 15) = Ok (mkdate 2024 6 15))
    by (vm_compute; reflexivity).
  split; [exact Ht|].
  apply (this_year_birthday_not_past june10 (mkdate 1990 6 15) (mkdate 2024 6 15));
    [vm_compute; reflexivity | exact Ht].
Defined.

Lemma upcoming_entry_dates_witness :
  fst (get_upcoming_birthdays june10 bob_book) = Ok [bob_entry] /\
  exists c, e_birthday bob_entry = strftime_dmy c /\
    e_congratulation_date bob_entry = strftime_ymd c /\
    valid_date c = true /\ 0 <= date_sub_days c june10 <= 9.
Proof.
  assert (Hu : fst (get_upcoming_birthdays june10 bob_book) = Ok [bob_entry])
    by (vm_compute; reflexivity).
  split; [exact Hu|].
  apply (upcoming_entry_dates june10 bob_book [bob_entry] bob_entry Hu). left. reflexivity.
Defined.

Lemma handlers_unknown_contact_witness :
  dict_get zed anna_book = None /\
  run_handler (handle_show_phone [zed] anna_book)
  = ([Print (Shown (pystr_of "'Contact not found.'"))], anna_book).
Proof.
  assert (Hz : dict_get zed anna_book = None) by (vm_compute; reflexivity).
  split; [exact Hz|].
  exact (proj1 (proj2 (handlers_unknown_contact anna_book zed phone1 phone2 [] Hz))).
Defined.

Lemma shell_add_invalid_phone_witness :
  dispatch june10 (pystr_of "add") [zed; pystr_of "12"] anna_book
  = ([PrintArgs [zed; pystr_of "12"];
      Print (Shown (pystr_of "Phone number must be 10 digits"))],
     dict_set zed (mkrecord zed [] None) anna_book).
Proof.
  apply shell_add_invalid_phone;
    [vm_compute; reflexivity | vm_compute; reflexivity | discriminate | discriminate].
Defined.

Lemma main_loop_stops_at_exit_witness :
  snd (main_loop clock_june10 0 session []) = Exited /\
  main_loop clock_june10 0 (session ++ [pystr_of "hello"]) []
  = main_loop clock_june10 0 session [].
Proof.
  assert (He : snd (main_loop clock_june10 0 session []) = Exited)
    by (vm_compute; reflexivity).
  split; [exact He|].
  exact (main_loop_stops_at_exit clock_june10 0 session [pystr_of "hello"] [] He).
Defined.

Lemma birthday_commands_roundtrip_witness :
  valid_date (mkdate 1990 6 15) = true /\
  handle_show_birthday [pystr_of "Bob"]
    (dict_set (pystr_of "Bob") (mkrecord (pystr_of "Bob") [phone1] (Some (mkdate 1990 6 15)))
       bob_book)
  = ([], inl (strftime_dmy (mkdate 1990 6 15)),
     dict_set (pystr_of "Bob") (mkrecord (pystr_of "Bob") [phone1] (Some (mkdate 1990 6 15)))
       bob_book).
Proof.
  assert (Hv : valid_date (mkdate 1990 6 15) = true) by reflexivity.
  split; [exact Hv|].
  exact (proj2 (birthday_commands_roundtrip bob_book (pystr_of "Bob") bob_record
                  (mkdate 1990 6 15) ascii_text_decimal Hv eq_refl)).
Defined.

Lemma remove_phone_absent_witness :
  ~ In phone2 (phones twin_record) /\ remove_phone twin_record phone2 = twin_record.
Proof.
  assert (Hn : ~ In phone2 (phones twin_record))
    by (vm_compute; intros [Hx|[Hx|[]]]; discriminate).
  split; [exact Hn|]. exact (remove_phone_absent twin_record phone2 Hn).
Defined.

Lemma remove_phone_single_witness :
  phones (remove_phone trio_record phone1) = [phone2; phone3].
Proof.
  apply (remove_phone_single trio_record phone1 [phone2] [phone3]);
    [reflexivity | vm_compute; intros [Hx|[]]; discriminate
    | vm_compute; intros [Hx|[]]; discriminate].
Defined.

Lemma remove_phone_adjacent_copy_witness :
  phones twin_record = [] ++ phone1 :: phone1 :: [] /\
  In phone1 (phones (remove_phone twin_record phone1)).
Proof.
  split; [reflexivity|].
  exact (remove_phone_adjacent_copy twin_record phone1 [] [] eq_refl).
Defined.

Lemma birthday_roundtrip_witness :
  Birthday_new (pystr_of "15.06.1990") = Ok (mkdate 1990 6 15) /\
  add_birthday bob_record (pystr_of "15.06.1990")
  = Ok (mkrecord (pystr_of "Bob") [phone1] (Some (mkdate 1990 6 15))).
Proof.
  destruct (birthday_roundtrip bob_record (mkdate 1990 6 15) ascii_text_decimal eq_refl)
    as [H1 [H2 _]].
  split; [exact H1 | exact H2].
Defined.

Lemma birthday_unpadded_witness :
  Birthday_new (pystr_of "5.2.2000") = Ok (mkdate 2000 2 5).
Proof.
  apply (birthday_unpadded 2000 2 5 ascii_text_decimal); [lia | lia | reflexivity].
Defined.

Lemma birthday_trailing_witness :
  Birthday_new (pystr_of "15.06.19900")
  = Err (ValidationException (pystr_of "Invalid date format. Use DD.MM.YYYY")).
Proof.
  apply (birthday_trailing (mkdate 1990 6 15) 48 [] ascii_text_decimal). reflexivity.
Defined.

Lemma parse_input_args_witness :
  parse_input (pystr_of " ADD Anna  1234567890 ") = Ok (pystr_of "add", [anna; phone1]) /\
  [anna; phone1] = tl (py_split (pystr_of " ADD Anna  1234567890 ")) /\
  Forall token [anna; phone1].
Proof.
  assert (Hp : parse_input (pystr_of " ADD Anna  1234567890 ")
               = Ok (pystr_of "add", [anna; phone1])) by (vm_compute; reflexivity).
  split; [exact Hp|]. exact (parse_input_args _ _ _ Hp).
Defined.

Lemma parse_input_join_witness :
  parse_input (join [32] [pystr_of "Hello"; anna]) = Ok (str_lower (pystr_of "Hello"), [anna]).
Proof.
  apply (parse_input_join (pystr_of "Hello") [anna]); [reflexivity|].
  repeat constructor; discriminate.
Defined.
